(** * The kqueue pollset of libs/apr/poll/unix/kqueue.c

    A shallow embedding of [get_kqueue_revent], [fspr_pollset_create],
    [fspr_pollset_add], [fspr_pollset_remove] and [fspr_pollset_poll],
    together with a small model of the kernel queue they talk to, and the
    properties of the pollset that follow from the code. *)

From stdpp Require Import gmap list.

Local Open Scope Z_scope.

(** ** Fixed-width integers *)

(** The value of a C expression converted to [fspr_int16_t]. *)
Definition to_int16 (x : Z) : Z := (x + 2 ^ 15) `mod` 2 ^ 16 - 2 ^ 15.

(** The value of a C expression converted to [int] / [fspr_int32_t]. *)
Definition to_int32 (x : Z) : Z := (x + 2 ^ 31) `mod` 2 ^ 32 - 2 ^ 31.

(** The value of a C expression converted to [fspr_uint32_t]. *)
Definition to_uint32 (x : Z) : Z := x `mod` 2 ^ 32.

(** [x & m] taken as a C condition. *)
Definition c_and (x m : Z) : bool := negb (Z.land x m =? 0).

(** ** What the headers provide

    kqueue.c only includes fspr_arch_poll_private.h.  The constants and
    macros it takes from there, from fspr_time.h, fspr_errno.h and from
    <sys/event.h> are parameters of the development. *)

Class Headers := {
  (* fspr_poll.h *)
  APR_POLLIN : Z;
  APR_POLLOUT : Z;
  APR_POLLERR : Z;
  APR_POLLHUP : Z;
  (* sys/event.h *)
  EVFILT_READ : Z;
  EVFILT_WRITE : Z;
  EV_ADD : Z;
  EV_DELETE : Z;
  EV_EOF : Z;
  EV_ERROR : Z;
  (* fspr_errno.h *)
  APR_SUCCESS : Z;
  APR_ENOMEM : Z;
  APR_NOTFOUND : Z;
  APR_TIMEUP : Z;
  fspr_get_netos_error : Z → Z;
  (* fspr_time.h *)
  fspr_time_sec : Z → Z;
  fspr_time_msec : Z → Z;
  (* the host's [long], as a conversion *)
  to_long : Z → Z;
}.

(** The values these names have on a BSD host: <sys/event.h> for the
    filters and flags, and the portable runtime's own headers, where a
    time is a count of microseconds. *)
Definition bsd_headers : Headers := {|
  APR_POLLIN := 0x001;
  APR_POLLOUT := 0x004;
  APR_POLLERR := 0x010;
  APR_POLLHUP := 0x020;
  EVFILT_READ := -1;
  EVFILT_WRITE := -2;
  EV_ADD := 0x0001;
  EV_DELETE := 0x0002;
  EV_EOF := 0x8000;
  EV_ERROR := 0x4000;
  APR_SUCCESS := 0;
  APR_ENOMEM := 12;
  APR_NOTFOUND := 70015;
  APR_TIMEUP := 70007;
  fspr_get_netos_error := λ errno, errno;
  fspr_time_sec := λ t, t `quot` 1000000;
  fspr_time_msec := λ t, (t `quot` 1000) `rem` 1000;
  to_long := λ x, (x + 2 ^ 63) `mod` 2 ^ 64 - 2 ^ 63;
|}.

(** A portable event mask that is one bit of an [fspr_int16_t]. *)
Definition single_bit16 (m : Z) : Prop := 0 ≤ Z.log2 m < 16 ∧ m = 2 ^ Z.log2 m.

(** [mask] has the bit(s) of [m]. *)
Definition has_event (mask m : Z) : Prop := Z.land mask m ≠ 0.

(** A [pfd_elem_t *]: records come from the pool one after the other and
    are never given back, so a record is named by its rank of allocation. *)
Abbreviation elem_ptr := nat.

Section kqueue.
Context `{hdr : Headers}.

(** The four portable masks are four different bits. *)
Definition portable_masks_ok : Prop :=
  Forall single_bit16 [APR_POLLIN; APR_POLLOUT; APR_POLLERR; APR_POLLHUP]
  ∧ NoDup [APR_POLLIN; APR_POLLOUT; APR_POLLERR; APR_POLLHUP].

(** ** Event translation *)

Definition get_kqueue_revent (event flags : Z) : Z :=
  let rv := 0 in
  let rv := if event =? EVFILT_READ then to_int16 (Z.lor rv APR_POLLIN) else rv in
  let rv := if event =? EVFILT_WRITE then to_int16 (Z.lor rv APR_POLLOUT) else rv in
  let rv := if c_and flags EV_EOF then to_int16 (Z.lor rv APR_POLLHUP) else rv in
  let rv := if c_and flags EV_ERROR then to_int16 (Z.lor rv APR_POLLERR) else rv in
  rv.

(** ** Descriptors and records *)

Inductive fspr_datatype_e :=
  | APR_NO_DESC
  | APR_POLL_SOCKET
  | APR_POLL_FILE
  | APR_POLL_LASTDESC.

(** The union [fspr_descriptor] holds one pointer, read as [desc.s] or as
    [desc.f].  [desc_ptr] is that pointer; [socketdes] and [filedes] are
    what [desc.s->socketdes] and [desc.f->filedes] read through it. *)
Record fspr_descriptor := {
  desc_ptr : Z;
  socketdes : Z;
  filedes : Z;
}.

Record fspr_pollfd_t := {
  desc_type : fspr_datatype_e;
  reqevents : Z;
  rtnevents : Z;
  desc : fspr_descriptor;
  client_data : Z;
}.

Definition set_rtnevents (pfd : fspr_pollfd_t) (ev : Z) : fspr_pollfd_t :=
  {| desc_type := desc_type pfd; reqevents := reqevents pfd; rtnevents := ev;
     desc := desc pfd; client_data := client_data pfd |}.

(** The content of memory nobody wrote yet. *)
Definition unwritten_pollfd : fspr_pollfd_t :=
  {| desc_type := APR_NO_DESC; reqevents := 0; rtnevents := 0;
     desc := {| desc_ptr := 0; socketdes := 0; filedes := 0 |};
     client_data := 0 |}.

(** ** The kernel queue *)

Record kevent_t := {
  ident : Z;
  filter : Z;
  kflags : Z;
  fflags : Z;
  data : Z;
  udata : option elem_ptr;
}.

Definition EV_SET (id flt fl ffl dat : Z) (ud : option elem_ptr) : kevent_t :=
  {| ident := id; filter := flt; kflags := fl; fflags := ffl; data := dat;
     udata := ud |}.

Definition zero_kevent : kevent_t := EV_SET 0 0 0 0 0 None.

Record timespec := {
  tv_sec : Z;
  tv_nsec : Z;
}.

(** The two ways kqueue.c calls [kevent], each with the value the call
    returned. *)
Inductive syscall :=
  | sys_change (ch : kevent_t) (ret : Z)
  | sys_wait (nevents : Z) (tvptr : option timespec) (ret : Z).

(** The kernel side of [kqueue_fd]: the registered watches, keyed by
    identifier and filter and carrying the user-data tag; whether the next
    change requests are refused whatever they ask ([true] refuses); and the
    calls received so far, oldest first. *)
Record kqueue_t := {
  knotes : gmap (Z * Z) (option elem_ptr);
  faults : list bool;
  ktrace : list syscall;
}.

Definition new_kqueue (script : list bool) : kqueue_t :=
  {| knotes := ∅; faults := script; ktrace := [] |}.

(** What a change request does to the watches of a queue that does not
    refuse it, and the value returned: EV_ADD registers or overwrites the
    watch, EV_DELETE removes it and fails when there is none. *)
Definition apply_change (watches : gmap (Z * Z) (option elem_ptr))
    (ch : kevent_t) : gmap (Z * Z) (option elem_ptr) * Z :=
  let key := (ident ch, filter ch) in
  if c_and (kflags ch) EV_ADD then (<[key := udata ch]> watches, 0)
  else if c_and (kflags ch) EV_DELETE then
    match watches !! key with
    | Some _ => (delete key watches, 0)
    | None => (watches, -1)
    end
  else (watches, 0).

(** [kevent(kq, &ch, 1, NULL, 0, NULL)]: the new queue and the value
    returned. *)
Definition kevent_change (kq : kqueue_t) (ch : kevent_t) : kqueue_t * Z :=
  let '(watches, ret) :=
    match faults kq with
    | true :: _ => (knotes kq, -1)
    | _ => apply_change (knotes kq) ch
    end in
  ({| knotes := watches; faults := tail (faults kq);
      ktrace := ktrace kq ++ [sys_change ch ret] |}, ret).

(** What a wait call comes back with: a failure and its [errno], or the
    events that are ready. *)
Inductive wait_outcome :=
  | wait_error (errno : Z)
  | wait_ready (evs : list kevent_t).

(** [kevent(kq, NULL, 0, eventlist, nevents, tvptr)]: the queue, the event
    buffer, the value returned and [errno].  The kernel stores at most
    [nevents] events, at the start of the buffer. *)
Definition kevent_wait (kq : kqueue_t) (eventlist : list kevent_t)
    (nevents : Z) (tvptr : option timespec) (w : wait_outcome)
    : kqueue_t * list kevent_t * Z * Z :=
  let '(events, ret, errno) :=
    match w with
    | wait_error e => (eventlist, -1, e)
    | wait_ready evs =>
        let got := take (Z.to_nat nevents) evs in
        (got ++ drop (length got) eventlist, Z.of_nat (length got), 0)
    end in
  ({| knotes := knotes kq; faults := faults kq;
      ktrace := ktrace kq ++ [sys_wait nevents tvptr ret] |},
   events, ret, errno).

(** ** The pollset *)

(** [struct fspr_pollset_t].  [kqueue_fd] stands for the kernel queue the
    descriptor names.  [pool] is the memory of the records allocated so
    far: [pool !! e] is [e->pfd].  A ring is the list of its records from
    first to last; the rings only ever hold records of the pool (see
    [rings_partition]), so every access through a ring member is in range.
    The ring lock is not modelled: calls run one at a time. *)
Record fspr_pollset_t := {
  pool : list fspr_pollfd_t;
  nelts : Z;
  nalloc : Z;
  kqueue_fd : kqueue_t;
  kevent : kevent_t;
  ke_set : list kevent_t;
  result_set : list fspr_pollfd_t;
  flags : Z;
  query_ring : list elem_ptr;
  free_ring : list elem_ptr;
  dead_ring : list elem_ptr;
}.

(** The pollset [fspr_pollset_create] leaves when the mutex, if one is
    asked for, and the kernel queue are obtained: lines 88 to 111. *)
Definition fspr_pollset_create (size flags : Z) (kq : kqueue_t)
    : fspr_pollset_t * Z :=
  let rv := APR_SUCCESS in
  ({| pool := [];
      nelts := 0;
      nalloc := size;
      kqueue_fd := kq;
      kevent := zero_kevent;
      ke_set := replicate (Z.to_nat size) zero_kevent;
      result_set := replicate (Z.to_nat size) unwritten_pollfd;
      flags := flags;
      query_ring := [];
      free_ring := [];
      dead_ring := [] |}, rv).

(** The descriptor number behind a [fspr_pollfd_t]. *)
Definition os_fd (descriptor : fspr_pollfd_t) : Z :=
  match desc_type descriptor with
  | APR_POLL_SOCKET => socketdes (desc descriptor)
  | _ => filedes (desc descriptor)
  end.

(** One guarded registration or removal, as both functions write it:
    [EV_SET] on the scratch event, the call, and [rv] set to [err] when
    the call returns -1. *)
Definition change_step (guard : bool) (ch : kevent_t) (err : Z)
    (st : kqueue_t * kevent_t * Z) : kqueue_t * kevent_t * Z :=
  let '(kq, scratch, rv) := st in
  if guard then
    let '(kq', r) := kevent_change kq ch in
    (kq', ch, if r =? -1 then err else rv)
  else (kq, scratch, rv).

Definition fspr_pollset_add (pollset : fspr_pollset_t)
    (descriptor : fspr_pollfd_t) : fspr_pollset_t * Z :=
  let rv := APR_SUCCESS in
  let '(elem, free1, pool1) :=
    match free_ring pollset with
    | e :: rest => (e, rest, pool pollset)
    | [] => (length (pool pollset), [], pool pollset ++ [unwritten_pollfd])
    end in
  let pool2 := <[elem := descriptor]> pool1 in
  let fd := os_fd descriptor in
  let st := (kqueue_fd pollset, kevent pollset, rv) in
  let st :=
    change_step (c_and (reqevents descriptor) APR_POLLIN)
      (EV_SET fd EVFILT_READ EV_ADD 0 0 (Some elem)) APR_ENOMEM st in
  let st :=
    change_step
      (c_and (reqevents descriptor) APR_POLLOUT && (st.2 =? APR_SUCCESS))
      (EV_SET fd EVFILT_WRITE EV_ADD 0 0 (Some elem)) APR_ENOMEM st in
  let '(kq, scratch, rv) := st in
  if rv =? APR_SUCCESS then
    ({| pool := pool2;
        nelts := to_uint32 (nelts pollset + 1);
        nalloc := nalloc pollset;
        kqueue_fd := kq;
        kevent := scratch;
        ke_set := ke_set pollset;
        result_set := result_set pollset;
        flags := flags pollset;
        query_ring := query_ring pollset ++ [elem];
        free_ring := free1;
        dead_ring := dead_ring pollset |}, rv)
  else
    ({| pool := pool2;
        nelts := nelts pollset;
        nalloc := nalloc pollset;
        kqueue_fd := kq;
        kevent := scratch;
        ke_set := ke_set pollset;
        result_set := result_set pollset;
        flags := flags pollset;
        query_ring := query_ring pollset;
        free_ring := free1 ++ [elem];
        dead_ring := dead_ring pollset |}, rv).

(** The loop of [fspr_pollset_remove] over a ring: the first record whose
    descriptor pointer is [ptr], and the ring once it is unlinked. *)
Fixpoint ring_scan (mem : list fspr_pollfd_t) (ptr : Z)
    (ring : list elem_ptr) : option (elem_ptr * list elem_ptr) :=
  match ring with
  | [] => None
  | ep :: rest =>
      if bool_decide (desc_ptr ∘ desc <$> mem !! ep = Some ptr) then
        Some (ep, rest)
      else
        match ring_scan mem ptr rest with
        | Some (found, rest') => Some (found, ep :: rest')
        | None => None
        end
  end.

Definition fspr_pollset_remove (pollset : fspr_pollset_t)
    (descriptor : fspr_pollfd_t) : fspr_pollset_t * Z :=
  let rv := APR_SUCCESS in
  let fd := os_fd descriptor in
  let st := (kqueue_fd pollset, kevent pollset, rv) in
  let st :=
    change_step (c_and (reqevents descriptor) APR_POLLIN)
      (EV_SET fd EVFILT_READ EV_DELETE 0 0 None) APR_NOTFOUND st in
  let st :=
    change_step
      (c_and (reqevents descriptor) APR_POLLOUT && (st.2 =? APR_SUCCESS))
      (EV_SET fd EVFILT_WRITE EV_DELETE 0 0 None) APR_NOTFOUND st in
  let '(kq, scratch, rv) := st in
  let '(query, dead) :=
    match ring_scan (pool pollset) (desc_ptr (desc descriptor))
            (query_ring pollset) with
    | Some (ep, rest) => (rest, dead_ring pollset ++ [ep])
    | None => (query_ring pollset, dead_ring pollset)
    end in
  ({| pool := pool pollset;
      nelts := nelts pollset;
      nalloc := nalloc pollset;
      kqueue_fd := kq;
      kevent := scratch;
      ke_set := ke_set pollset;
      result_set := result_set pollset;
      flags := flags pollset;
      query_ring := query;
      free_ring := free_ring pollset;
      dead_ring := dead |}, rv).

(** The timeout handed to the wait call: [tvptr], null when [timeout] is
    negative. *)
Definition poll_timespec (timeout : Z) : option timespec :=
  if timeout <? 0 then None
  else Some {| tv_sec := to_long (fspr_time_sec timeout);
               tv_nsec := to_long (fspr_time_msec timeout) |}.

(** What the loop of [fspr_pollset_poll] stores for event [ke] whose
    record holds [pfd]: the record's descriptor, with the translation of
    the event's filter and flags as returned events. *)
Definition result_slot (pfd : fspr_pollfd_t) (ke : kevent_t) : fspr_pollfd_t :=
  set_rtnevents pfd
    (get_kqueue_revent (to_int16 (filter ke)) (to_int16 (kflags ke))).

(** The loop over the events received, from index [i] for [n] more
    rounds.  Reading an event's record goes through its user-data
    pointer; [None] is an access outside of the buffers or through a
    pointer that is no record. *)
Fixpoint fill_result_set (mem : list fspr_pollfd_t) (events : list kevent_t)
    (i n : nat) (results : list fspr_pollfd_t) : option (list fspr_pollfd_t) :=
  match n with
  | O => Some results
  | S n' =>
      ke ← events !! i;
      elem ← udata ke;
      pfd ← mem !! elem;
      if bool_decide (i < length results)%nat then
        fill_result_set mem events (S i) n' (<[i := result_slot pfd ke]> results)
      else None
  end.

(** [APR_RING_CONCAT(h1, h2)]: the records of [h2] go to the end of [h1],
    and [h2] is left empty. *)
Definition ring_concat (h1 h2 : list elem_ptr) : list elem_ptr * list elem_ptr :=
  (h1 ++ h2, []).

(** What [fspr_pollset_poll] hands back: the status, [*num], and whether
    [*descriptors] was pointed at the result buffer. *)
Record poll_result := {
  poll_rv : Z;
  poll_num : Z;
  poll_descriptors : bool;
}.

(** [descriptors] tells whether the caller passed a non-null pointer;
    [w] is what the wait call comes back with. *)
Definition fspr_pollset_poll (pollset : fspr_pollset_t) (timeout : Z)
    (descriptors : bool) (w : wait_outcome)
    : option (fspr_pollset_t * poll_result) :=
  let rv := APR_SUCCESS in
  let tvptr := poll_timespec timeout in
  let '(kq, events, ret, errno) :=
    kevent_wait (kqueue_fd pollset) (ke_set pollset)
      (to_int32 (nalloc pollset)) tvptr w in
  let num := ret in
  '(results, rv, pointed) ←
    (if ret <? 0 then Some (result_set pollset, fspr_get_netos_error errno, false)
     else if ret =? 0 then Some (result_set pollset, APR_TIMEUP, false)
     else
       results ← fill_result_set (pool pollset) events 0 (Z.to_nat ret)
                   (result_set pollset);
       Some (results, rv, descriptors));
  let '(free, dead) := ring_concat (free_ring pollset) (dead_ring pollset) in
  Some ({| pool := pool pollset;
           nelts := nelts pollset;
           nalloc := nalloc pollset;
           kqueue_fd := kq;
           kevent := kevent pollset;
           ke_set := events;
           result_set := results;
           flags := flags pollset;
           query_ring := query_ring pollset;
           free_ring := free;
           dead_ring := dead |},
        {| poll_rv := rv; poll_num := num; poll_descriptors := pointed |}).

(** ** Runs *)

Inductive op :=
  | op_add (descriptor : fspr_pollfd_t)
  | op_remove (descriptor : fspr_pollfd_t)
  | op_poll (timeout : Z) (descriptors : bool) (w : wait_outcome).

(** One call: the pollset after it and the status it returns. *)
Definition step (pollset : fspr_pollset_t) (o : op) : option (fspr_pollset_t * Z) :=
  match o with
  | op_add d => Some (fspr_pollset_add pollset d)
  | op_remove d => Some (fspr_pollset_remove pollset d)
  | op_poll t ds w =>
      '(ps, r) ← fspr_pollset_poll pollset t ds w; Some (ps, poll_rv r)
  end.

(** A sequence of calls, with the statuses they return, first call first. *)
Fixpoint run (pollset : fspr_pollset_t) (ops : list op)
    : option (fspr_pollset_t * list Z) :=
  match ops with
  | [] => Some (pollset, [])
  | o :: ops' =>
      '(ps, rv) ← step pollset o;
      '(ps', rvs) ← run ps ops';
      Some (ps', rv :: rvs)
  end.

End kqueue.


(** ** Predicates used in the statements *)

(** The record an add call works on: the first of the Free ring, or a new
    one from the pool when that ring is empty. *)
Definition next_record (pollset : fspr_pollset_t) : elem_ptr :=
  match free_ring pollset with
  | e :: _ => e
  | [] => length (pool pollset)
  end.

(** The Free ring once an add call has taken its record. *)
Definition free_after_take (pollset : fspr_pollset_t) : list elem_ptr :=
  tail (free_ring pollset).

(** The three rings hold the records of the pool, each one once. *)
Definition rings_partition (pollset : fspr_pollset_t) : Prop :=
  query_ring pollset ++ dead_ring pollset ++ free_ring pollset
    ≡ₚ seq 0 (length (pool pollset)).

(** [e] is on the first of three rings and on neither of the others. *)
Definition only_on (e : elem_ptr) (r r1 r2 : list elem_ptr) : Prop :=
  (e ∈ r) ∧ (e ∉ r1) ∧ (e ∉ r2).

(** The events of [w] that the wait call of a poll stores are no more than
    the result buffer holds, and each is tagged with a record of the pool:
    the loop of [fspr_pollset_poll] stays inside the memory it owns. *)
Definition poll_safe (pollset : fspr_pollset_t) (w : wait_outcome) : Prop :=
  match w with
  | wait_error _ => True
  | wait_ready evs =>
      let got := take (Z.to_nat (to_int32 (nalloc pollset))) evs in
      (length got ≤ length (result_set pollset))%nat
      ∧ Forall (λ ke, (∃ e, udata ke = Some e ∧ (e < length (pool pollset))%nat)) got
  end.

(** A change request the kernel turned down. *)
Definition refused (c : syscall) : bool :=
  match c with
  | sys_change _ ret => ret =? -1
  | sys_wait _ _ _ => false
  end.

(** The pool once an add call has written the descriptor into its record. *)
Definition pool_after_add (pollset : fspr_pollset_t)
    (descriptor : fspr_pollfd_t) : list fspr_pollfd_t :=
  <[next_record pollset := descriptor]>
    (match free_ring pollset with
     | [] => pool pollset ++ [unwritten_pollfd]
     | _ :: _ => pool pollset
     end).

(** The registration requests of an add call. *)
Definition add_read `{hdr : Headers} (pollset : fspr_pollset_t)
    (descriptor : fspr_pollfd_t) : kevent_t :=
  EV_SET (os_fd descriptor) EVFILT_READ EV_ADD 0 0 (Some (next_record pollset)).

Definition add_write `{hdr : Headers} (pollset : fspr_pollset_t)
    (descriptor : fspr_pollfd_t) : kevent_t :=
  EV_SET (os_fd descriptor) EVFILT_WRITE EV_ADD 0 0 (Some (next_record pollset)).

(** The removal requests of a remove call. *)
Definition remove_read `{hdr : Headers} (descriptor : fspr_pollfd_t) : kevent_t :=
  EV_SET (os_fd descriptor) EVFILT_READ EV_DELETE 0 0 None.

Definition remove_write `{hdr : Headers} (descriptor : fspr_pollfd_t) : kevent_t :=
  EV_SET (os_fd descriptor) EVFILT_WRITE EV_DELETE 0 0 None.

(** The kernel queue, the scratch event and [rv] after the two guarded
    requests [rd] and [wr] of an add or remove call on mask [req]. *)
Definition two_changes `{hdr : Headers} (pollset : fspr_pollset_t) (req : Z)
    (rd wr : kevent_t) (err : Z) : kqueue_t * kevent_t * Z :=
  let st := (kqueue_fd pollset, kevent pollset, APR_SUCCESS) in
  let st := change_step (c_and req APR_POLLIN) rd err st in
  change_step (c_and req APR_POLLOUT && (st.2 =? APR_SUCCESS)) wr err st.

(** ** Inputs used in the examples *)

(** A socket with descriptor number 7, watched for reading and writing. *)
Definition sock7 : fspr_pollfd_t :=
  {| desc_type := APR_POLL_SOCKET; reqevents := 5; rtnevents := 0;
     desc := {| desc_ptr := 4096; socketdes := 7; filedes := 0 |};
     client_data := 0 |}.

(** The same socket, watched for reading only. *)
Definition sock7_in : fspr_pollfd_t :=
  {| desc_type := APR_POLL_SOCKET; reqevents := 1; rtnevents := 0;
     desc := {| desc_ptr := 4096; socketdes := 7; filedes := 0 |};
     client_data := 0 |}.

(** A file with descriptor number 9 and an empty interest mask. *)
Definition file9_none : fspr_pollfd_t :=
  {| desc_type := APR_POLL_FILE; reqevents := 0; rtnevents := 0;
     desc := {| desc_ptr := 8192; socketdes := 0; filedes := 9 |};
     client_data := 0 |}.

(** A new pollset of four slots on a BSD host, over a kernel queue that
    follows [script]. *)
Definition fresh4 (script : list bool) : fspr_pollset_t :=
  (fspr_pollset_create (hdr := bsd_headers) 4 0 (new_kqueue script)).1.

(** A read event for descriptor 7 tagged with record 0, with the
    end-of-file flag. *)
Definition ev7_read_eof : kevent_t := EV_SET 7 (-1) 0x8001 0 0 (Some 0%nat).

(** The new pollset once [sock7_in] is added. *)
Definition watching7 : fspr_pollset_t :=
  (fspr_pollset_add (hdr := bsd_headers) (fresh4 []) sock7_in).1.

(** [watching7] once [file9_none] is added and removed again: record 0 is
    on the Active ring and record 1 on the Dead ring. *)
Definition one_dead : fspr_pollset_t :=
  (fspr_pollset_remove (hdr := bsd_headers)
     (fspr_pollset_add (hdr := bsd_headers) watching7 file9_none).1
     file9_none).1.

(** The duration a [timespec] denotes, in nanoseconds. *)
Definition timespec_nanos (tv : timespec) : Z :=
  tv_sec tv * 1000000000 + tv_nsec tv.

(** ** Creation, with its failure paths *)

(** What [fspr_pollset_create] takes from the headers besides [Headers]:
    whether the library is built with threads, the flag asking for a
    thread-safe pollset, and the status for a missing feature. *)
Class ThreadHeaders := {
  APR_HAS_THREADS : bool;
  APR_POLLSET_THREADSAFE : Z;
  APR_ENOTIMPL : Z;
}.

(** A threaded build on a BSD host. *)
Definition bsd_threads : ThreadHeaders := {|
  APR_HAS_THREADS := true;
  APR_POLLSET_THREADSAFE := 0x001;
  APR_ENOTIMPL := 70023;
|}.

Module Create.

(** What [*pollset] is when [fspr_pollset_create] returns: null; an object
    whose [kqueue_fd] is -1 and whose rings and result buffer were never
    set up; or a pollset. *)
Inductive created :=
  | created_null
  | created_without_queue
  | created_pollset (ps : fspr_pollset_t).

(** The whole of [fspr_pollset_create].  [mutex_rv] is the status
    [fspr_thread_mutex_create] returns when it is called, and [kq] is the
    queue [kqueue()] opens, [None] when it returns -1.  In the threaded
    build [rv] receives the value of the comparison
    [fspr_thread_mutex_create(...) != APR_SUCCESS], 0 or 1. *)
Definition fspr_pollset_create `{hdr : Headers} `{thr : ThreadHeaders}
    (size flags : Z) (mutex_rv : Z) (kq : option kqueue_t) : created * Z :=
  let rv := APR_SUCCESS in
  let threadsafe := c_and flags APR_POLLSET_THREADSAFE in
  let rv :=
    if APR_HAS_THREADS && threadsafe then
      if mutex_rv =? APR_SUCCESS then 0 else 1
    else rv in
  if APR_HAS_THREADS && threadsafe && negb (rv =? 0) then (created_null, rv)
  else if negb APR_HAS_THREADS && threadsafe then (created_null, APR_ENOTIMPL)
  else
    match kq with
    | None => (created_without_queue, APR_ENOMEM)
    | Some k => (created_pollset (fspr_pollset_create size flags k).1, rv)
    end.

End Create.

(** ** More predicates used in the statements *)

(** Record [e] of memory [mem] holds a descriptor whose pointer is [ptr]:
    the test of the loop of [fspr_pollset_remove]. *)
Definition holds_ptr (mem : list fspr_pollfd_t) (ptr : Z) (e : elem_ptr) : Prop :=
  desc_ptr ∘ desc <$> mem !! e = Some ptr.

(** The kernel tells the two requests kqueue.c makes apart: a request
    flagged [EV_ADD] adds, one flagged [EV_DELETE] deletes and does not
    add. *)
Definition change_flags_ok `{hdr : Headers} : Prop :=
  has_event EV_ADD EV_ADD ∧ has_event EV_DELETE EV_DELETE
  ∧ ¬ has_event EV_DELETE EV_ADD.

(** Every watch of the kernel queue is tagged with a record of the pool. *)
Definition tags_in_pool (pollset : fspr_pollset_t) : Prop :=
  ∀ key tag, knotes (kqueue_fd pollset) !! key = Some tag →
    ∃ e, tag = Some e ∧ (e < length (pool pollset))%nat.



(** The number of add calls of a run that returned success, given the
    calls and the statuses they returned. *)
Fixpoint successful_adds `{hdr : Headers} (ops : list op) (rvs : list Z) : nat :=
  match ops, rvs with
  | op_add _ :: ops', rv :: rvs' =>
      (if rv =? APR_SUCCESS then 1 else 0) + successful_adds ops' rvs'
  | _ :: ops', _ :: rvs' => successful_adds ops' rvs'
  | _, _ => 0
  end.

(** ** More inputs used in the examples *)

(** Another socket, with descriptor number 8, watched for writing. *)
Definition sock8_out : fspr_pollfd_t :=
  {| desc_type := APR_POLL_SOCKET; reqevents := 4; rtnevents := 0;
     desc := {| desc_ptr := 12288; socketdes := 8; filedes := 0 |};
     client_data := 0 |}.

(** Socket 8 again, named with both bits in the mask. *)
Definition sock8_both : fspr_pollfd_t :=
  {| desc_type := APR_POLL_SOCKET; reqevents := 5; rtnevents := 0;
     desc := {| desc_ptr := 12288; socketdes := 8; filedes := 0 |};
     client_data := 0 |}.

(** The new pollset once [sock8_out] is added. *)
Definition watching8 : fspr_pollset_t :=
  (fspr_pollset_add (hdr := bsd_headers) (fresh4 []) sock8_out).1.

(** Socket 7 with an empty interest mask. *)
Definition sock7_none : fspr_pollfd_t :=
  {| desc_type := APR_POLL_SOCKET; reqevents := 0; rtnevents := 0;
     desc := {| desc_ptr := 4096; socketdes := 7; filedes := 0 |};
     client_data := 0 |}.

(** [sock8_out] and then socket 7 twice on a new pollset: records 1 and 2
    hold the same descriptor pointer. *)
Definition twice7 : fspr_pollset_t :=
  (fspr_pollset_add (hdr := bsd_headers)
     (fspr_pollset_add (hdr := bsd_headers)
        (fspr_pollset_add (hdr := bsd_headers) (fresh4 []) sock8_out).1
        sock7_in).1
     sock7).1.

(** ** Integer and bit facts *)

Lemma to_int16_testbit (x i : Z) :
  0 ≤ i < 16 → Z.testbit (to_int16 x) i = Z.testbit x i.
Proof.
  intros Hi.
  rewrite <- (Z.mod_pow2_bits_low (to_int16 x) 16 i) by lia.
  rewrite <- (Z.mod_pow2_bits_low x 16 i) by lia.
  f_equal. unfold to_int16.
  rewrite (Z.div_mod (x + 2 ^ 15) (2 ^ 16)) at 1 by lia.
  replace (2 ^ 16 * ((x + 2 ^ 15) `div` 2 ^ 16) + (x + 2 ^ 15) `mod` 2 ^ 16)
    with (x + 2 ^ 15) by (rewrite <- Z.div_mod; lia).
  set (q := (x + 2 ^ 15) `div` 2 ^ 16).
  replace ((x + 2 ^ 15) `mod` 2 ^ 16 - 2 ^ 15) with (x + (- q) * 2 ^ 16).
  - apply Z_mod_plus_full.
  - pose proof (Z.div_mod (x + 2 ^ 15) (2 ^ 16)). fold q in H. lia.
Qed.

Lemma has_event_testbit (x k : Z) :
  0 ≤ k → has_event x (2 ^ k) ↔ Z.testbit x k = true.
Proof.
  intros Hk. unfold has_event.
  assert (Z.land x (2 ^ k) = if Z.testbit x k then 2 ^ k else 0) as ->.
  { apply Z.bits_inj'. intros n Hn.
    rewrite Z.land_spec, Z.pow2_bits_eqb by lia.
    destruct (Z.eqb_spec k n) as [->|Hne].
    - destruct (Z.testbit x n); simpl.
      + rewrite Z.pow2_bits_eqb by lia. symmetry. apply Z.eqb_refl.
      + symmetry. apply Z.bits_0.
    - rewrite andb_false_r.
      destruct (Z.testbit x k).
      + rewrite Z.pow2_bits_eqb by lia. symmetry. by apply Z.eqb_neq.
      + symmetry. apply Z.bits_0. }
  pose proof (Z.pow_pos_nonneg 2 k).
  destruct (Z.testbit x k); split; intros; try done; lia.
Qed.

Lemma c_and_has_event (x m : Z) : c_and x m = true ↔ has_event x m.
Proof.
  unfold c_and, has_event. destruct (Z.eqb_spec (Z.land x m) 0); simpl; split; done.
Qed.

Lemma c_and_not_has_event (x m : Z) : c_and x m = false ↔ ¬ has_event x m.
Proof.
  rewrite <- c_and_has_event. destruct (c_and x m); naive_solver.
Qed.

(** ** Event translation *)

(** Bit [k] of the translated mask, for a bit of an [fspr_int16_t]. *)
Lemma get_kqueue_revent_testbit `{hdr : Headers} (event flags k : Z) :
  0 ≤ k < 16 →
  Z.testbit (get_kqueue_revent event flags) k =
    ((event =? EVFILT_READ) && Z.testbit APR_POLLIN k)
    || ((event =? EVFILT_WRITE) && Z.testbit APR_POLLOUT k)
    || (c_and flags EV_EOF && Z.testbit APR_POLLHUP k)
    || (c_and flags EV_ERROR && Z.testbit APR_POLLERR k).
Proof.
  intros Hk. unfold get_kqueue_revent.
  destruct (event =? EVFILT_READ), (event =? EVFILT_WRITE),
    (c_and flags EV_EOF), (c_and flags EV_ERROR); simpl;
    rewrite ?to_int16_testbit, ?Z.lor_spec, ?to_int16_testbit, ?Z.lor_spec,
      ?to_int16_testbit, ?Z.lor_spec, ?to_int16_testbit, ?Z.lor_spec,
      ?Z.bits_0, ?orb_false_r by lia;
    simpl; rewrite ?orb_false_r, ?orb_assoc; done.
Qed.

(** C9.  For every native event, the mask [get_kqueue_revent] builds has
    the readable bit exactly when the filter is the read filter, the
    writable bit exactly when it is the write filter, the hangup bit
    exactly when the flags have the end-of-file flag and the error bit
    exactly when they have the error flag; an event with both flags is
    reported with both hangup and error.  The four portable masks are taken
    to be four different bits of a 16-bit mask. *)
Theorem get_kqueue_revent_bits `{hdr : Headers} (event flags : Z) :
  portable_masks_ok →
  let rv := get_kqueue_revent event flags in
  (has_event rv APR_POLLIN ↔ event = EVFILT_READ)
  ∧ (has_event rv APR_POLLOUT ↔ event = EVFILT_WRITE)
  ∧ (has_event rv APR_POLLHUP ↔ has_event flags EV_EOF)
  ∧ (has_event rv APR_POLLERR ↔ has_event flags EV_ERROR)
  ∧ (has_event flags EV_EOF → has_event flags EV_ERROR →
     has_event rv APR_POLLHUP ∧ has_event rv APR_POLLERR).
Proof.
  intros [Hbits Hdup] rv.
  rewrite !Forall_cons in Hbits.
  destruct Hbits as ([Ra Pa] & [Rb Pb] & [Rc Pc] & [Rd Pd] & _).
  remember (Z.log2 APR_POLLIN) as a eqn:Ea.
  remember (Z.log2 APR_POLLOUT) as b eqn:Eb.
  remember (Z.log2 APR_POLLERR) as c eqn:Ec.
  remember (Z.log2 APR_POLLHUP) as d eqn:Ed.
  clear Ea Eb Ec Ed.
  assert (a ≠ b ∧ a ≠ c ∧ a ≠ d ∧ b ≠ c ∧ b ≠ d ∧ c ≠ d) as Hne.
  { rewrite !NoDup_cons, !elem_of_cons in Hdup.
    repeat split; intros E; subst; intuition congruence. }
  assert (∀ k, 0 ≤ k < 16 →
    has_event rv (2 ^ k) ↔
      ((event =? EVFILT_READ) && (a =? k))
      || ((event =? EVFILT_WRITE) && (b =? k))
      || (c_and flags EV_EOF && (d =? k))
      || (c_and flags EV_ERROR && (c =? k)) = true) as Hrv.
  { intros k Hk. rewrite has_event_testbit by lia. unfold rv.
    rewrite get_kqueue_revent_testbit by lia.
    rewrite Pa, Pb, Pc, Pd at 1. rewrite !Z.pow2_bits_eqb by lia. done. }
  assert (has_event rv APR_POLLIN ↔ event = EVFILT_READ) as HIN.
  { rewrite Pa, Hrv by lia. rewrite Z.eqb_refl.
    destruct (Z.eqb_spec b a), (Z.eqb_spec d a), (Z.eqb_spec c a); lia. }
  assert (has_event rv APR_POLLOUT ↔ event = EVFILT_WRITE) as HOUT.
  { rewrite Pb, Hrv by lia. rewrite Z.eqb_refl.
    destruct (Z.eqb_spec a b), (Z.eqb_spec d b), (Z.eqb_spec c b); lia. }
  assert (has_event rv APR_POLLHUP ↔ has_event flags EV_EOF) as HHUP.
  { rewrite Pd, Hrv by lia. rewrite Z.eqb_refl.
    destruct (Z.eqb_spec a d), (Z.eqb_spec b d), (Z.eqb_spec c d); try lia;
      rewrite !andb_false_r, !orb_false_r, andb_true_r; simpl;
      apply c_and_has_event. }
  assert (has_event rv APR_POLLERR ↔ has_event flags EV_ERROR) as HERR.
  { rewrite Pc, Hrv by lia. rewrite Z.eqb_refl.
    destruct (Z.eqb_spec a c), (Z.eqb_spec b c), (Z.eqb_spec d c); try lia;
      rewrite !andb_false_r, !orb_false_r, andb_true_r; simpl;
      apply c_and_has_event. }
  repeat split; try tauto.
Qed.

Lemma get_kqueue_revent_bits_witness :
  portable_masks_ok (hdr := bsd_headers)
  ∧ has_event (get_kqueue_revent (hdr := bsd_headers) (-1) (-16384)) 0x020
  ∧ has_event (get_kqueue_revent (hdr := bsd_headers) (-1) (-16384)) 0x010.
Proof.
  assert (portable_masks_ok (hdr := bsd_headers)) as Hok.
  { split.
    - repeat constructor; simpl; lia.
    - apply (bool_decide_unpack _). vm_compute. exact I. }
  split; [exact Hok|].
  apply (get_kqueue_revent_bits (hdr := bsd_headers) (-1) (-16384) Hok);
    vm_compute; discriminate.
Defined.

(** ** The change requests of add and remove *)

Lemma kevent_change_trace `{hdr : Headers} (kq : kqueue_t) (ch : kevent_t) :
  ktrace (kevent_change kq ch).1
  = ktrace kq ++ [sys_change ch (kevent_change kq ch).2].
Proof.
  unfold kevent_change.
  by destruct (match faults kq with true :: _ => _ | _ => _ end).
Qed.

(** A refused change request leaves the watches as they were. *)
Lemma kevent_change_refused `{hdr : Headers} (kq : kqueue_t) (ch : kevent_t) :
  (kevent_change kq ch).2 = -1 → knotes (kevent_change kq ch).1 = knotes kq.
Proof.
  unfold kevent_change, apply_change.
  destruct (faults kq) as [|[] ?]; simpl; try done;
    destruct (c_and (kflags ch) EV_ADD); simpl; try done;
    destruct (c_and (kflags ch) EV_DELETE); simpl; try done;
    destruct (knotes kq !! _); simpl; done.
Qed.

(** An accepted EV_ADD request registers the watch under its tag. *)
Lemma kevent_change_added `{hdr : Headers} (kq : kqueue_t) (ch : kevent_t) :
  has_event (kflags ch) EV_ADD →
  (kevent_change kq ch).2 ≠ -1 →
  knotes (kevent_change kq ch).1
  = <[(ident ch, filter ch) := udata ch]> (knotes kq).
Proof.
  intros Hadd%c_and_has_event. unfold kevent_change, apply_change.
  rewrite Hadd. by destruct (faults kq) as [|[] ?].
Qed.

Lemma add_unfold `{hdr : Headers} (pollset : fspr_pollset_t)
    (descriptor : fspr_pollfd_t) :
  fspr_pollset_add pollset descriptor =
    let st := two_changes pollset (reqevents descriptor)
                (add_read pollset descriptor) (add_write pollset descriptor)
                APR_ENOMEM in
    if st.2 =? APR_SUCCESS then
      ({| pool := pool_after_add pollset descriptor;
          nelts := to_uint32 (nelts pollset + 1);
          nalloc := nalloc pollset;
          kqueue_fd := st.1.1;
          kevent := st.1.2;
          ke_set := ke_set pollset;
          result_set := result_set pollset;
          flags := flags pollset;
          query_ring := query_ring pollset ++ [next_record pollset];
          free_ring := free_after_take pollset;
          dead_ring := dead_ring pollset |}, st.2)
    else
      ({| pool := pool_after_add pollset descriptor;
          nelts := nelts pollset;
          nalloc := nalloc pollset;
          kqueue_fd := st.1.1;
          kevent := st.1.2;
          ke_set := ke_set pollset;
          result_set := result_set pollset;
          flags := flags pollset;
          query_ring := query_ring pollset;
          free_ring := free_after_take pollset ++ [next_record pollset];
          dead_ring := dead_ring pollset |}, st.2).
Proof.
  unfold fspr_pollset_add, two_changes, add_read, add_write, pool_after_add,
    next_record, free_after_take.
  destruct (free_ring pollset) as [|e rest]; cbv beta iota zeta;
    match goal with
    | |- context [change_step ?g2 ?c2 ?e2 (change_step ?g1 ?c1 ?e1 ?s)] =>
        destruct (change_step g2 c2 e2 (change_step g1 c1 e1 s)) as [[kq sc] rv]
    end; simpl; done.
Qed.

Lemma remove_unfold `{hdr : Headers} (pollset : fspr_pollset_t)
    (descriptor : fspr_pollfd_t) :
  fspr_pollset_remove pollset descriptor =
    let st := two_changes pollset (reqevents descriptor)
                (remove_read descriptor) (remove_write descriptor)
                APR_NOTFOUND in
    let found := ring_scan (pool pollset) (desc_ptr (desc descriptor))
                   (query_ring pollset) in
    ({| pool := pool pollset;
        nelts := nelts pollset;
        nalloc := nalloc pollset;
        kqueue_fd := st.1.1;
        kevent := st.1.2;
        ke_set := ke_set pollset;
        result_set := result_set pollset;
        flags := flags pollset;
        query_ring := from_option snd (query_ring pollset) found;
        free_ring := free_ring pollset;
        dead_ring := dead_ring pollset ++ from_option (λ f, [f.1]) [] found |},
     st.2).
Proof.
  unfold fspr_pollset_remove, two_changes, remove_read, remove_write.
  cbv zeta.
  match goal with
  | |- context [change_step ?g2 ?c2 ?e2 (change_step ?g1 ?c1 ?e1 ?s)] =>
      destruct (change_step g2 c2 e2 (change_step g1 c1 e1 s)) as [[kq sc] rv]
  end.
  destruct (ring_scan _ _ _) as [[ep rest]|]; simpl; [done|].
  by rewrite app_nil_r.
Qed.

Lemma change_step_true `{hdr : Headers} (ch : kevent_t) (err : Z)
    (kq : kqueue_t) (sc : kevent_t) (rv : Z) :
  change_step true ch err (kq, sc, rv)
  = ((kevent_change kq ch).1, ch,
     if (kevent_change kq ch).2 =? -1 then err else rv).
Proof. unfold change_step. by destruct (kevent_change kq ch). Qed.

Lemma change_step_false `{hdr : Headers} (ch : kevent_t) (err : Z)
    (st : kqueue_t * kevent_t * Z) :
  change_step false ch err st = st.
Proof. by destruct st as [[? ?] ?]. Qed.

(** With neither bit in the mask no request is made. *)
Lemma two_changes_none `{hdr : Headers} (pollset : fspr_pollset_t) (req : Z)
    (rd wr : kevent_t) (err : Z) :
  ¬ has_event req APR_POLLIN → ¬ has_event req APR_POLLOUT →
  two_changes pollset req rd wr err
  = (kqueue_fd pollset, kevent pollset, APR_SUCCESS).
Proof.
  intros Hin%c_and_not_has_event Hout%c_and_not_has_event.
  unfold two_changes. rewrite Hin, Hout. cbn [andb].
  by rewrite !change_step_false.
Qed.

(** With both bits in the mask and an error status that is not the success
    status, the second request is made exactly when the first is accepted. *)
Lemma two_changes_both `{hdr : Headers} (pollset : fspr_pollset_t) (req : Z)
    (rd wr : kevent_t) (err : Z) :
  has_event req APR_POLLIN → has_event req APR_POLLOUT →
  err ≠ APR_SUCCESS →
  let first := kevent_change (kqueue_fd pollset) rd in
  let second := kevent_change first.1 wr in
  two_changes pollset req rd wr err
  = if first.2 =? -1 then (first.1, rd, err)
    else (second.1, wr, if second.2 =? -1 then err else APR_SUCCESS).
Proof.
  intros Hin%c_and_has_event Hout%c_and_has_event Herr first second.
  unfold two_changes. rewrite Hin, Hout, change_step_true. fold first.
  destruct (first.2 =? -1) eqn:E; cbn [fst snd andb].
  - apply Z.eqb_neq in Herr. rewrite Herr. by rewrite change_step_false.
  - rewrite Z.eqb_refl, change_step_true. done.
Qed.

(** The status after the requests is the error status exactly when one of
    the requests made was refused. *)
Lemma two_changes_status `{hdr : Headers} (pollset : fspr_pollset_t) (req : Z)
    (rd wr : kevent_t) (err : Z) :
  let st := two_changes pollset req rd wr err in
  ∃ calls,
    ktrace st.1.1 = ktrace (kqueue_fd pollset) ++ calls
    ∧ st.2 = if existsb refused calls then err else APR_SUCCESS.
Proof.
  unfold two_changes.
  destruct (c_and req APR_POLLIN); [rewrite change_step_true|rewrite change_step_false];
    cbn [snd fst];
    (destruct (c_and req APR_POLLOUT); cbn [andb];
      [|rewrite change_step_false]).
  - destruct ((kevent_change (kqueue_fd pollset) rd).2 =? -1) eqn:E1.
    + destruct (err =? APR_SUCCESS) eqn:E.
      * rewrite change_step_true. cbn [fst snd].
        exists [sys_change rd (kevent_change (kqueue_fd pollset) rd).2;
                sys_change wr (kevent_change (kevent_change (kqueue_fd pollset) rd).1 wr).2].
        rewrite !kevent_change_trace, <- app_assoc. split; [done|].
        cbn [existsb refused]. rewrite E1. cbn [orb].
        by case_match.
      * rewrite change_step_false. cbn [fst snd].
        exists [sys_change rd (kevent_change (kqueue_fd pollset) rd).2].
        rewrite kevent_change_trace. split; [done|].
        cbn [existsb refused]. by rewrite E1.
    + rewrite Z.eqb_refl, change_step_true. cbn [fst snd].
      exists [sys_change rd (kevent_change (kqueue_fd pollset) rd).2;
              sys_change wr (kevent_change (kevent_change (kqueue_fd pollset) rd).1 wr).2].
      rewrite !kevent_change_trace, <- app_assoc. split; [done|].
      cbn [existsb refused]. rewrite E1. cbn [orb]. by rewrite orb_false_r.
  - cbn [fst snd].
    exists [sys_change rd (kevent_change (kqueue_fd pollset) rd).2].
    rewrite kevent_change_trace. split; [done|].
    cbn [existsb refused]. by rewrite orb_false_r.
  - rewrite Z.eqb_refl, change_step_true. cbn [fst snd].
    exists [sys_change wr (kevent_change (kqueue_fd pollset) wr).2].
    rewrite kevent_change_trace. split; [done|].
    cbn [existsb refused]. by rewrite orb_false_r.
  - exists []. cbn [fst snd existsb]. by rewrite app_nil_r.
Qed.

(** ** Add *)

(** C10.  An add call whose mask has neither the readable nor the writable
    bit makes no native call (the kernel queue, its watches and its trace
    are untouched), returns success, puts its record, holding the
    descriptor, at the tail of the Active ring, and increments the count
    (as a 32-bit unsigned number). *)
Theorem add_empty_mask `{hdr : Headers} (pollset : fspr_pollset_t)
    (descriptor : fspr_pollfd_t) :
  ¬ has_event (reqevents descriptor) APR_POLLIN →
  ¬ has_event (reqevents descriptor) APR_POLLOUT →
  let ps' := (fspr_pollset_add pollset descriptor).1 in
  (fspr_pollset_add pollset descriptor).2 = APR_SUCCESS
  ∧ kqueue_fd ps' = kqueue_fd pollset
  ∧ query_ring ps' = query_ring pollset ++ [next_record pollset]
  ∧ free_ring ps' = free_after_take pollset
  ∧ dead_ring ps' = dead_ring pollset
  ∧ ((next_record pollset < length (pool ps'))%nat →
     pool ps' !! next_record pollset = Some descriptor)
  ∧ nelts ps' = to_uint32 (nelts pollset + 1)
  ∧ (0 ≤ nelts pollset < 2 ^ 32 - 1 → nelts ps' = nelts pollset + 1).
Proof.
  intros Hin Hout ps'. unfold ps'. rewrite add_unfold. cbv zeta.
  rewrite two_changes_none by done. cbn [fst snd].
  rewrite Z.eqb_refl. cbn.
  repeat split; try done.
  - unfold pool_after_add. rewrite length_insert. intros Hlt.
    by apply list_lookup_insert_eq.
  - intros Hn. unfold to_uint32. apply Z.mod_small. lia.
Qed.

Lemma add_empty_mask_witness :
  ¬ has_event (reqevents file9_none) (APR_POLLIN (Headers := bsd_headers))
  ∧ ¬ has_event (reqevents file9_none) (APR_POLLOUT (Headers := bsd_headers))
  ∧ (fspr_pollset_add (hdr := bsd_headers) (fresh4 []) file9_none).2 = 0
  ∧ query_ring (fspr_pollset_add (hdr := bsd_headers) (fresh4 []) file9_none).1
    = [0%nat].
Proof.
  assert (¬ has_event (reqevents file9_none) (APR_POLLIN (Headers := bsd_headers)))
    as Hin by (vm_compute; intros E; by apply E).
  assert (¬ has_event (reqevents file9_none) (APR_POLLOUT (Headers := bsd_headers)))
    as Hout by (vm_compute; intros E; by apply E).
  pose proof (add_empty_mask (hdr := bsd_headers) (fresh4 []) file9_none Hin Hout)
    as (Hrv & _ & Hq & _).
  split; [exact Hin|]. split; [exact Hout|]. split; [exact Hrv|exact Hq].
Defined.

(** C1, as the code has it.  An add call with both bits in its mask that
    fails returns [APR_ENOMEM], leaves the Active ring and the count as
    they were and puts its record at the tail of the Free ring.  The write
    registration is asked for only after the read registration is
    accepted, and nothing is undone: either the read registration was
    refused and the watches are those from before the call, or it was
    accepted, the write registration was refused, and the read watch stays
    registered, tagged with the record. *)
Theorem add_failure `{hdr : Headers} (pollset : fspr_pollset_t)
    (descriptor : fspr_pollfd_t) :
  has_event (reqevents descriptor) APR_POLLIN →
  has_event (reqevents descriptor) APR_POLLOUT →
  has_event EV_ADD EV_ADD →
  (fspr_pollset_add pollset descriptor).2 ≠ APR_SUCCESS →
  let ps' := (fspr_pollset_add pollset descriptor).1 in
  let rd := add_read pollset descriptor in
  let wr := add_write pollset descriptor in
  let first := kevent_change (kqueue_fd pollset) rd in
  let second := kevent_change first.1 wr in
  (fspr_pollset_add pollset descriptor).2 = APR_ENOMEM
  ∧ query_ring ps' = query_ring pollset
  ∧ nelts ps' = nelts pollset
  ∧ free_ring ps' = free_after_take pollset ++ [next_record pollset]
  ∧ dead_ring ps' = dead_ring pollset
  ∧ ((first.2 = -1
      ∧ ktrace (kqueue_fd ps')
        = ktrace (kqueue_fd pollset) ++ [sys_change rd (-1)]
      ∧ knotes (kqueue_fd ps') = knotes (kqueue_fd pollset))
     ∨ (first.2 ≠ -1 ∧ second.2 = -1
        ∧ ktrace (kqueue_fd ps')
          = ktrace (kqueue_fd pollset)
            ++ [sys_change rd first.2; sys_change wr (-1)]
        ∧ knotes (kqueue_fd ps')
          = <[(os_fd descriptor, EVFILT_READ) := Some (next_record pollset)]>
              (knotes (kqueue_fd pollset)))).
Proof.
  intros Hin Hout Hadd. rewrite add_unfold. cbv zeta.
  destruct (decide (APR_ENOMEM = APR_SUCCESS)) as [Heq|Hne].
  { (* the status would be the success status whatever the kernel says *)
    intros Hfail. exfalso. apply Hfail.
    destruct (two_changes_status pollset (reqevents descriptor)
                (add_read pollset descriptor) (add_write pollset descriptor)
                APR_ENOMEM) as (calls & _ & Hst).
    destruct (_ =? APR_SUCCESS); cbn [snd]; rewrite Hst, Heq;
      by destruct (existsb refused calls). }
  rewrite two_changes_both by done. cbv zeta.
  set (rd := add_read pollset descriptor).
  set (wr := add_write pollset descriptor).
  set (first := kevent_change (kqueue_fd pollset) rd).
  set (second := kevent_change first.1 wr).
  destruct (Z.eqb_spec first.2 (-1)) as [E1|E1]; cbn [fst snd].
  - apply Z.eqb_neq in Hne as Hne'. rewrite Hne'. cbn.
    intros _. repeat split; try done. left.
    split; [done|]. split.
    + unfold first in *. by rewrite kevent_change_trace, E1.
    + by apply kevent_change_refused.
  - destruct (Z.eqb_spec second.2 (-1)) as [E2|E2].
    + apply Z.eqb_neq in Hne as Hne'. rewrite Hne'. cbn.
      intros _. repeat split; try done. right.
      split; [done|]. split; [done|]. split.
      * unfold second. rewrite kevent_change_trace. fold second. rewrite E2.
        unfold first. rewrite kevent_change_trace, <- app_assoc. done.
      * unfold second. rewrite kevent_change_refused by done.
        unfold first. by rewrite kevent_change_added.
    + rewrite Z.eqb_refl. cbn. intros Hfail. by destruct Hfail.
Qed.

Lemma add_failure_witness :
  (fspr_pollset_add (hdr := bsd_headers) (fresh4 [false; true]) sock7).2 = 12
  ∧ free_ring (fspr_pollset_add (hdr := bsd_headers) (fresh4 [false; true]) sock7).1
    = [0%nat].
Proof.
  assert (has_event (reqevents sock7) (APR_POLLIN (Headers := bsd_headers)))
    as Hin by (vm_compute; discriminate).
  assert (has_event (reqevents sock7) (APR_POLLOUT (Headers := bsd_headers)))
    as Hout by (vm_compute; discriminate).
  assert (has_event (EV_ADD (Headers := bsd_headers)) (EV_ADD (Headers := bsd_headers)))
    as Hadd by (vm_compute; discriminate).
  assert ((fspr_pollset_add (hdr := bsd_headers) (fresh4 [false; true]) sock7).2
          ≠ APR_SUCCESS (Headers := bsd_headers))
    as Hfail by (vm_compute; discriminate).
  pose proof (add_failure (hdr := bsd_headers) (fresh4 [false; true]) sock7
                Hin Hout Hadd Hfail) as (Hrv & _ & _ & Hfree & _).
  split; [exact Hrv|exact Hfree].
Defined.

(** C1, as the spec states it, fails: on a new pollset whose kernel queue
    accepts the read registration and refuses the write registration, the
    add call fails and the read watch of the descriptor is still
    registered. *)
Lemma add_rollback_counterexample :
  ¬ (∀ (pollset : fspr_pollset_t) (descriptor : fspr_pollfd_t),
       has_event (reqevents descriptor) (APR_POLLIN (Headers := bsd_headers)) →
       has_event (reqevents descriptor) (APR_POLLOUT (Headers := bsd_headers)) →
       (fspr_pollset_add (hdr := bsd_headers) pollset descriptor).2
         ≠ APR_SUCCESS (Headers := bsd_headers) →
       let ps' := (fspr_pollset_add (hdr := bsd_headers) pollset descriptor).1 in
       knotes (kqueue_fd ps')
         !! (os_fd descriptor, EVFILT_READ (Headers := bsd_headers)) = None
       ∧ knotes (kqueue_fd ps')
           !! (os_fd descriptor, EVFILT_WRITE (Headers := bsd_headers)) = None
       ∧ free_ring ps' = free_after_take pollset ++ [next_record pollset]
       ∧ query_ring ps' = query_ring pollset
       ∧ (fspr_pollset_add (hdr := bsd_headers) pollset descriptor).2
         = APR_ENOMEM (Headers := bsd_headers)).
Proof.
  intros H.
  destruct (H (fresh4 [false; true]) sock7) as [Hread _];
    try (vm_compute; discriminate).
Qed.

(** ** Remove *)

(** Remove does not touch the count, the pool or the Free ring. *)
Lemma remove_keeps `{hdr : Headers} (pollset : fspr_pollset_t)
    (descriptor : fspr_pollfd_t) :
  let ps' := (fspr_pollset_remove pollset descriptor).1 in
  nelts ps' = nelts pollset ∧ pool ps' = pool pollset
  ∧ free_ring ps' = free_ring pollset.
Proof. rewrite remove_unfold. done. Qed.

(** C3, as the spec states it, fails: removing a descriptor that was never
    added from a new pollset returns [APR_NOTFOUND], the kernel having no
    watch to delete. *)
Lemma remove_status_counterexample :
  ¬ (∀ (pollset : fspr_pollset_t) (descriptor : fspr_pollfd_t),
       (fspr_pollset_remove (hdr := bsd_headers) pollset descriptor).2
       = APR_SUCCESS (Headers := bsd_headers)).
Proof.
  intros H. specialize (H (fresh4 []) sock7_in). vm_compute in H. discriminate.
Qed.

(** C7, as the code has it.  A remove call with both bits in its mask
    always asks to unwatch the readable bit, and asks to unwatch the
    writable bit exactly when the first request was accepted. *)
Theorem remove_unwatch_calls `{hdr : Headers} (pollset : fspr_pollset_t)
    (descriptor : fspr_pollfd_t) :
  has_event (reqevents descriptor) APR_POLLIN →
  has_event (reqevents descriptor) APR_POLLOUT →
  APR_NOTFOUND ≠ APR_SUCCESS →
  let ps' := (fspr_pollset_remove pollset descriptor).1 in
  let rd := remove_read descriptor in
  let wr := remove_write descriptor in
  let first := kevent_change (kqueue_fd pollset) rd in
  let second := kevent_change first.1 wr in
  ktrace (kqueue_fd ps')
  = ktrace (kqueue_fd pollset)
    ++ (if first.2 =? -1 then [sys_change rd first.2]
        else [sys_change rd first.2; sys_change wr second.2]).
Proof.
  intros Hin Hout Hne. rewrite remove_unfold. cbv zeta.
  cbn [fst kqueue_fd]. rewrite two_changes_both by done. cbv zeta.
  destruct (_ =? -1); cbn [fst].
  - by rewrite kevent_change_trace.
  - by rewrite !kevent_change_trace, <- app_assoc.
Qed.

Lemma remove_unwatch_calls_witness :
  ktrace (kqueue_fd (fspr_pollset_remove (hdr := bsd_headers) (fresh4 []) sock7).1)
  = [sys_change (remove_read (hdr := bsd_headers) sock7) (-1)].
Proof.
  assert (has_event (reqevents sock7) (APR_POLLIN (Headers := bsd_headers)))
    as Hin by (vm_compute; discriminate).
  assert (has_event (reqevents sock7) (APR_POLLOUT (Headers := bsd_headers)))
    as Hout by (vm_compute; discriminate).
  assert (APR_NOTFOUND (Headers := bsd_headers) ≠ APR_SUCCESS (Headers := bsd_headers))
    as Hne by (vm_compute; discriminate).
  exact (remove_unwatch_calls (hdr := bsd_headers) (fresh4 []) sock7 Hin Hout Hne).
Defined.

(** C7, as the spec states it, fails: removing a descriptor with both bits
    from a new pollset, the read unwatch is refused and no write unwatch is
    asked for. *)
Lemma remove_unwatch_counterexample :
  ¬ (∀ (pollset : fspr_pollset_t) (descriptor : fspr_pollfd_t),
       has_event (reqevents descriptor) (APR_POLLIN (Headers := bsd_headers)) →
       has_event (reqevents descriptor) (APR_POLLOUT (Headers := bsd_headers)) →
       ∃ r1 r2,
         ktrace (kqueue_fd
                   (fspr_pollset_remove (hdr := bsd_headers) pollset descriptor).1)
         = ktrace (kqueue_fd pollset)
           ++ [sys_change (remove_read (hdr := bsd_headers) descriptor) r1;
               sys_change (remove_write (hdr := bsd_headers) descriptor) r2]).
Proof.
  intros H.
  destruct (H (fresh4 []) sock7) as (r1 & r2 & Htrace);
    try (vm_compute; discriminate).
Qed.

(** The scan stops at the first record with the pointer and unlinks it. *)
Lemma ring_scan_Some (mem : list fspr_pollfd_t) (ptr : Z)
    (ring : list elem_ptr) (ep : elem_ptr) (rest : list elem_ptr) :
  ring_scan mem ptr ring = Some (ep, rest) →
  ∃ before after,
    ring = before ++ ep :: after ∧ rest = before ++ after
    ∧ desc_ptr ∘ desc <$> mem !! ep = Some ptr
    ∧ Forall (λ e, desc_ptr ∘ desc <$> mem !! e ≠ Some ptr) before.
Proof.
  revert rest. induction ring as [|e ring IH]; intros rest; simpl; [done|].
  case_bool_decide as Hm.
  - intros [= -> <-]. exists [], ring. by repeat split.
  - destruct (ring_scan mem ptr ring) as [[found rest']|] eqn:E; [|done].
    intros [= -> <-].
    destruct (IH rest' eq_refl) as (before & after & -> & -> & Hep & Hbefore).
    exists (e :: before), after. repeat split; try done.
    by constructor.
Qed.

Lemma ring_scan_None (mem : list fspr_pollfd_t) (ptr : Z) (ring : list elem_ptr) :
  ring_scan mem ptr ring = None →
  Forall (λ e, desc_ptr ∘ desc <$> mem !! e ≠ Some ptr) ring.
Proof.
  induction ring as [|e ring IH]; simpl; [by constructor|].
  case_bool_decide as Hm; [done|].
  destruct (ring_scan mem ptr ring) as [[found rest']|]; [done|].
  intros _. constructor; [done|by apply IH].
Qed.

(** ** The rings share out the records of the pool *)

Lemma create_rings_partition `{hdr : Headers} (size fl : Z) (kq : kqueue_t) :
  rings_partition (fspr_pollset_create size fl kq).1.
Proof. unfold rings_partition. simpl. reflexivity. Qed.

Lemma add_rings_partition `{hdr : Headers} (pollset : fspr_pollset_t)
    (descriptor : fspr_pollfd_t) :
  rings_partition pollset →
  rings_partition (fspr_pollset_add pollset descriptor).1.
Proof.
  unfold rings_partition. intros H. rewrite add_unfold. cbv zeta.
  assert (query_ring pollset ++ dead_ring pollset
            ++ free_after_take pollset ++ [next_record pollset]
          ≡ₚ seq 0 (length (pool_after_add pollset descriptor))) as Hperm.
  { unfold pool_after_add, free_after_take, next_record.
    rewrite length_insert.
    destruct (free_ring pollset) as [|e rest]; simpl.
    - rewrite length_app, Nat.add_1_r, seq_S. simpl.
      rewrite app_nil_r in H. by rewrite <- H, <- app_assoc.
    - rewrite <- H. do 2 apply Permutation_app_head.
      symmetry. apply Permutation_cons_append. }
  destruct (_ =? APR_SUCCESS); cbn; [|done].
  rewrite <- Hperm, <- app_assoc. apply Permutation_app_head.
  rewrite (app_assoc (dead_ring pollset)).
  apply Permutation_app_comm.
Qed.

Lemma remove_rings_partition `{hdr : Headers} (pollset : fspr_pollset_t)
    (descriptor : fspr_pollfd_t) :
  rings_partition pollset →
  rings_partition (fspr_pollset_remove pollset descriptor).1.
Proof.
  unfold rings_partition. intros H. rewrite remove_unfold. cbv zeta. cbn.
  destruct (ring_scan _ _ _) as [[ep rest]|] eqn:E; cbn.
  - apply ring_scan_Some in E as (before & after & Hq & -> & _).
    rewrite <- H, Hq, <- !app_assoc. apply Permutation_app_head. simpl.
    by rewrite (app_assoc after), <- Permutation_middle, <- app_assoc.
  - by rewrite app_nil_r.
Qed.

(** ** Poll *)

(** The loop fills slots [i] to [i + n - 1] and no other, and runs to its
    end when these slots exist and the events are tagged with records. *)
Lemma fill_result_set_spec `{hdr : Headers} (mem : list fspr_pollfd_t)
    (events : list kevent_t) (n i : nat) (results : list fspr_pollfd_t) :
  (i + n ≤ length results)%nat →
  (∀ j, (i ≤ j < i + n)%nat →
     ∃ ke e pfd, events !! j = Some ke ∧ udata ke = Some e ∧ mem !! e = Some pfd) →
  ∃ results',
    fill_result_set mem events i n results = Some results'
    ∧ length results' = length results
    ∧ (∀ j, (j < i ∨ i + n ≤ j)%nat → results' !! j = results !! j)
    ∧ (∀ j ke e pfd, (i ≤ j < i + n)%nat →
         events !! j = Some ke → udata ke = Some e → mem !! e = Some pfd →
         results' !! j = Some (result_slot pfd ke)).
Proof.
  revert i results. induction n as [|n IH]; intros i results Hlen Htag.
  - exists results. repeat split; try done. intros; lia.
  - destruct (Htag i) as (ke & e & pfd & Hke & He & Hpfd); [lia|].
    simpl. rewrite Hke. simpl. rewrite He. simpl. rewrite Hpfd. simpl.
    rewrite bool_decide_eq_true_2 by lia.
    destruct (IH (S i) (<[i := result_slot pfd ke]> results))
      as (results' & Hrun & Hl & Hout & Hin).
    { rewrite length_insert. lia. }
    { intros j Hj. apply Htag. lia. }
    exists results'. split; [done|]. split; [by rewrite Hl, length_insert|].
    split.
    + intros j Hj. rewrite Hout by lia. apply list_lookup_insert_ne. lia.
    + intros j ke' e' pfd' Hj Hke' He' Hpfd'.
      destruct (decide (j = i)) as [->|Hne].
      * rewrite Hout by lia. simplify_eq.
        apply list_lookup_insert_eq. lia.
      * apply (Hin j ke' e' pfd'); try done. lia.
Qed.

(** A poll call that returns leaves the pool, the count and the Active
    ring as they were; the Free ring is the old Free ring followed by the
    old Dead ring, and the Dead ring is empty. *)
Lemma poll_rings `{hdr : Headers} (pollset : fspr_pollset_t) (timeout : Z)
    (descriptors : bool) (w : wait_outcome) (ps' : fspr_pollset_t)
    (r : poll_result) :
  fspr_pollset_poll pollset timeout descriptors w = Some (ps', r) →
  pool ps' = pool pollset ∧ nelts ps' = nelts pollset
  ∧ nalloc ps' = nalloc pollset
  ∧ query_ring ps' = query_ring pollset
  ∧ free_ring ps' = free_ring pollset ++ dead_ring pollset
  ∧ dead_ring ps' = [].
Proof.
  unfold fspr_pollset_poll.
  destruct (kevent_wait _ _ _ _ _) as [[[kq events] ret] errno].
  destruct (ret <? 0); [|destruct (ret =? 0)]; simpl.
  - by intros [= <- <-].
  - by intros [= <- <-].
  - destruct (fill_result_set _ _ _ _ _); simpl; [|done].
    by intros [= <- <-].
Qed.

(** What a safe poll call returns, whatever the wait call comes back
    with. *)
Lemma poll_spec `{hdr : Headers} (pollset : fspr_pollset_t) (timeout : Z)
    (descriptors : bool) (w : wait_outcome) :
  poll_safe pollset w →
  let wt := kevent_wait (kqueue_fd pollset) (ke_set pollset)
              (to_int32 (nalloc pollset)) (poll_timespec timeout) w in
  let events := wt.1.1.2 in
  let ret := wt.1.2 in
  ∃ ps' r,
    fspr_pollset_poll pollset timeout descriptors w = Some (ps', r)
    ∧ kqueue_fd ps' = wt.1.1.1 ∧ ke_set ps' = events
    ∧ poll_num r = ret
    ∧ poll_rv r = (if ret <? 0 then fspr_get_netos_error wt.2
                   else if ret =? 0 then APR_TIMEUP else APR_SUCCESS)
    ∧ poll_descriptors r = (if 0 <? ret then descriptors else false)
    ∧ (ret ≤ 0 → result_set ps' = result_set pollset)
    ∧ (∀ i, (i < Z.to_nat ret)%nat →
         ∃ ke e pfd,
           events !! i = Some ke ∧ udata ke = Some e
           ∧ pool pollset !! e = Some pfd
           ∧ result_set ps' !! i = Some (result_slot pfd ke)).
Proof.
  intros Hsafe. unfold fspr_pollset_poll.
  destruct w as [e|evs]; cbn -[Z.to_nat to_int32].
  - eexists _, _. split; [done|]. cbn. repeat split; try done. intros; lia.
  - destruct Hsafe as [Hlen Htags]. cbn zeta in Hlen, Htags.
    set (got := take (Z.to_nat (to_int32 (nalloc pollset))) evs) in *.
    rewrite Nat2Z.id.
    destruct got as [|ke0 got'] eqn:Egot.
    { cbn. eexists _, _. split; [done|]. cbn. repeat split; try done.
      intros; lia. }
    assert ((Z.of_nat (length (ke0 :: got')) <? 0) = false) as ->
      by (apply Z.ltb_ge; lia).
    assert ((Z.of_nat (length (ke0 :: got')) =? 0) = false) as ->
      by (apply Z.eqb_neq; simpl length; lia).
    assert ((0 <? Z.of_nat (length (ke0 :: got'))) = true) as Hpos
      by (apply Z.ltb_lt; simpl length; lia).
    rewrite <- Egot in *. clear Egot ke0 got'.
    destruct (fill_result_set_spec (pool pollset)
                (got ++ drop (length got) (ke_set pollset)) (length got) 0
                (result_set pollset)) as (results' & Hrun & Hl & Hout & Hin).
    { lia. }
    { intros j Hj. destruct (lookup_lt_is_Some_2 got j) as [ke Hke]; [lia|].
      rewrite Forall_lookup in Htags.
      destruct (Htags j ke Hke) as (e & He & Hlt).
      destruct (lookup_lt_is_Some_2 (pool pollset) e Hlt) as [pfd Hpfd].
      exists ke, e, pfd. by rewrite lookup_app_l by lia. }
    rewrite Hrun. cbn.
    eexists _, _. split; [done|]. cbn -[Z.to_nat].
    repeat split; try done.
    + by rewrite Hpos.
    + intros. apply Z.ltb_lt in Hpos. lia.
    + intros i Hi.
      destruct (lookup_lt_is_Some_2 got i) as [ke Hke]; [lia|].
      rewrite Forall_lookup in Htags.
      destruct (Htags i ke Hke) as (e & He & Hlt).
      destruct (lookup_lt_is_Some_2 (pool pollset) e Hlt) as [pfd Hpfd].
      exists ke, e, pfd. rewrite lookup_app_l by lia.
      repeat split; try done.
      apply (Hin i ke e pfd); try done; [lia|].
      by rewrite lookup_app_l by lia.
Qed.

(** C4.  Whatever the wait call comes back with, an error, no event or
    some events, a poll call returns with the Free ring made of the old
    Free ring followed by the records of the old Dead ring, in their order,
    and with the Dead ring empty; the Active ring and the pool are
    untouched, so no record is lost or doubled. *)
Theorem poll_splices_dead `{hdr : Headers} (pollset : fspr_pollset_t)
    (timeout : Z) (descriptors : bool) (w : wait_outcome) :
  poll_safe pollset w →
  ∃ ps' r,
    fspr_pollset_poll pollset timeout descriptors w = Some (ps', r)
    ∧ free_ring ps' = free_ring pollset ++ dead_ring pollset
    ∧ dead_ring ps' = []
    ∧ query_ring ps' = query_ring pollset
    ∧ pool ps' = pool pollset.
Proof.
  intros Hsafe.
  destruct (poll_spec pollset timeout descriptors w Hsafe)
    as (ps' & r & Hrun & _).
  exists ps', r. split; [done|].
  apply poll_rings in Hrun as (Hpool & _ & _ & Hq & Hf & Hd). done.
Qed.

Lemma poll_splices_dead_witness :
  poll_safe one_dead (wait_ready [ev7_read_eof])
  ∧ ∃ ps' r,
      fspr_pollset_poll (hdr := bsd_headers) one_dead (-1) true
        (wait_ready [ev7_read_eof]) = Some (ps', r)
      ∧ free_ring ps' = [1%nat] ∧ dead_ring ps' = [].
Proof.
  assert (poll_safe one_dead (wait_ready [ev7_read_eof])) as Hsafe.
  { split; [vm_compute; lia|].
    repeat constructor. exists 0%nat. split; [reflexivity|vm_compute; lia]. }
  split; [exact Hsafe|].
  destruct (poll_splices_dead (hdr := bsd_headers) one_dead (-1) true
              (wait_ready [ev7_read_eof]) Hsafe)
    as (ps' & r & Hrun & Hf & Hd & _).
  exists ps', r. split; [exact Hrun|]. split; [exact Hf|exact Hd].
Defined.

(** ** Ring exclusivity *)

Lemma poll_rings_partition `{hdr : Headers} (pollset : fspr_pollset_t)
    (timeout : Z) (descriptors : bool) (w : wait_outcome)
    (ps' : fspr_pollset_t) (r : poll_result) :
  rings_partition pollset →
  fspr_pollset_poll pollset timeout descriptors w = Some (ps', r) →
  rings_partition ps'.
Proof.
  unfold rings_partition.
  intros H (Hpool & _ & _ & Hq & Hf & Hd)%poll_rings.
  rewrite Hpool, Hq, Hf, Hd, <- H. simpl.
  apply Permutation_app_head, Permutation_app_comm.
Qed.

Lemma step_rings_partition `{hdr : Headers} (pollset : fspr_pollset_t)
    (o : op) (ps' : fspr_pollset_t) (rv : Z) :
  rings_partition pollset → step pollset o = Some (ps', rv) →
  rings_partition ps'.
Proof.
  intros H. destruct o as [d|d|t ds w]; simpl.
  - intros [= E]. apply (f_equal fst) in E. simpl in E. subst ps'.
    by apply add_rings_partition.
  - intros [= E]. apply (f_equal fst) in E. simpl in E. subst ps'.
    by apply remove_rings_partition.
  - destruct (fspr_pollset_poll pollset t ds w) as [[ps1 r]|] eqn:E; [|done].
    simpl. intros [= <- <-]. by eapply poll_rings_partition.
Qed.

Lemma run_rings_partition `{hdr : Headers} (ops : list op)
    (pollset ps' : fspr_pollset_t) (rvs : list Z) :
  rings_partition pollset → run pollset ops = Some (ps', rvs) →
  rings_partition ps'.
Proof.
  revert pollset rvs. induction ops as [|o ops IH]; intros pollset rvs H; simpl.
  - by intros [= <- <-].
  - destruct (step pollset o) as [[ps1 rv]|] eqn:E; [|done]. simpl.
    destruct (run ps1 ops) as [[ps2 rvs2]|] eqn:E2; [|done]. simpl.
    intros [= <- <-]. eapply IH; [|done].
    by eapply step_rings_partition.
Qed.

(** What the partition says record by record. *)
Lemma rings_partition_exclusive (pollset : fspr_pollset_t) :
  rings_partition pollset →
  (∀ e, (e < length (pool pollset))%nat →
     only_on e (query_ring pollset) (dead_ring pollset) (free_ring pollset)
     ∨ only_on e (dead_ring pollset) (query_ring pollset) (free_ring pollset)
     ∨ only_on e (free_ring pollset) (query_ring pollset) (dead_ring pollset))
  ∧ (∀ e, e ∈ query_ring pollset ++ dead_ring pollset ++ free_ring pollset →
       (e < length (pool pollset))%nat)
  ∧ NoDup (query_ring pollset) ∧ NoDup (dead_ring pollset)
  ∧ NoDup (free_ring pollset)
  ∧ (length (query_ring pollset) + length (dead_ring pollset)
     + length (free_ring pollset) = length (pool pollset))%nat.
Proof.
  unfold rings_partition, only_on. intros H.
  assert (NoDup (query_ring pollset ++ dead_ring pollset ++ free_ring pollset))
    as Hnd by (rewrite H; apply NoDup_seq).
  apply NoDup_app in Hnd as (Hq & Hqx & Hnd).
  apply NoDup_app in Hnd as (Hd & Hdx & Hf).
  assert (∀ e, e ∈ query_ring pollset ++ dead_ring pollset ++ free_ring pollset
               ↔ (e < length (pool pollset))%nat) as Hin.
  { intros e. rewrite H, elem_of_seq. lia. }
  repeat split; try done.
  - intros e He. apply Hin in He. rewrite !elem_of_app in He.
    destruct He as [He|[He|He]].
    + left. specialize (Hqx e He). rewrite elem_of_app in Hqx. tauto.
    + right; left. specialize (Hdx e He).
      split; [done|]. split; [|done].
      intros Hq'. specialize (Hqx e Hq'). rewrite elem_of_app in Hqx. tauto.
    + right; right. split; [done|]. split.
      * intros Hq'. specialize (Hqx e Hq'). rewrite elem_of_app in Hqx. tauto.
      * intros Hd'. by specialize (Hdx e Hd').
  - intros e He. by apply Hin.
  - apply Permutation_length in H.
    rewrite !length_app, length_seq in H. lia.
Qed.

(** C5.  After any sequence of add, remove and poll calls on a new
    pollset, every record allocated for it is on exactly one of the
    Active, Dead and Free rings, once, the rings hold nothing but these
    records, and the sizes of the three rings add up to the number of
    records allocated. *)
Theorem ring_exclusivity `{hdr : Headers} (size fl : Z) (kq : kqueue_t)
    (ops : list op) (pollset : fspr_pollset_t) (rvs : list Z) :
  run (fspr_pollset_create size fl kq).1 ops = Some (pollset, rvs) →
  (∀ e, (e < length (pool pollset))%nat →
     only_on e (query_ring pollset) (dead_ring pollset) (free_ring pollset)
     ∨ only_on e (dead_ring pollset) (query_ring pollset) (free_ring pollset)
     ∨ only_on e (free_ring pollset) (query_ring pollset) (dead_ring pollset))
  ∧ (∀ e, e ∈ query_ring pollset ++ dead_ring pollset ++ free_ring pollset →
       (e < length (pool pollset))%nat)
  ∧ NoDup (query_ring pollset) ∧ NoDup (dead_ring pollset)
  ∧ NoDup (free_ring pollset)
  ∧ (length (query_ring pollset) + length (dead_ring pollset)
     + length (free_ring pollset) = length (pool pollset))%nat.
Proof.
  intros Hrun. apply rings_partition_exclusive.
  eapply run_rings_partition; [|exact Hrun].
  apply create_rings_partition.
Qed.

Lemma ring_exclusivity_witness :
  ∃ pollset rvs,
    run (hdr := bsd_headers)
      (fspr_pollset_create (hdr := bsd_headers) 4 0 (new_kqueue [false; true])).1
      [op_add sock7; op_add sock7_in; op_add file9_none; op_remove file9_none;
       op_poll 0 true (wait_ready [ev7_read_eof]); op_remove sock7_in]
    = Some (pollset, rvs)
    ∧ (length (query_ring pollset) + length (dead_ring pollset)
       + length (free_ring pollset) = length (pool pollset))%nat.
Proof.
  eexists _, _.
  match goal with
  | |- ?R = _ ∧ _ => assert (R = Some (_, _)) as Hrun by (vm_compute; reflexivity)
  end.
  split; [exact Hrun|].
  apply (ring_exclusivity (hdr := bsd_headers) _ _ _ _ _ _ Hrun).
Defined.

(** ** The count *)

(** A remove call that finds its record takes it off the Active ring and
    leaves the count as it was. *)
Lemma remove_found_count `{hdr : Headers} (pollset : fspr_pollset_t)
    (descriptor : fspr_pollfd_t) (ep : elem_ptr) (rest : list elem_ptr) :
  ring_scan (pool pollset) (desc_ptr (desc descriptor)) (query_ring pollset)
    = Some (ep, rest) →
  let ps' := (fspr_pollset_remove pollset descriptor).1 in
  nelts ps' = nelts pollset
  ∧ S (length (query_ring ps')) = length (query_ring pollset)
  ∧ dead_ring ps' = dead_ring pollset ++ [ep].
Proof.
  intros Hscan. rewrite remove_unfold. cbv zeta. cbn. rewrite Hscan. cbn.
  apply ring_scan_Some in Hscan as (before & after & -> & -> & _).
  rewrite !length_app. simpl. split; [done|]. split; [lia|done].
Qed.

(** C2.  On a new pollset, adding a socket and removing it again, both
    calls returning success, leaves the Active ring empty, the record on
    the Dead ring, and the count at 1: [fspr_pollset_remove] has no
    decrement to go with the increment of [fspr_pollset_add]. *)
Theorem count_after_remove :
  match run (hdr := bsd_headers) (fresh4 [])
          [op_add sock7_in; op_remove sock7_in] with
  | Some (pollset, rvs) =>
      rvs = [0; 0] ∧ nelts pollset = 1
      ∧ query_ring pollset = [] ∧ dead_ring pollset = [0%nat]
  | None => False
  end.
Proof. vm_compute. done. Qed.

(** ** The timeout *)

(** A negative timeout is handed over as a null pointer. *)
Lemma poll_timespec_negative `{hdr : Headers} (timeout : Z) :
  timeout < 0 → poll_timespec timeout = None.
Proof.
  intros H. unfold poll_timespec. by rewrite (proj2 (Z.ltb_lt timeout 0)).
Qed.

(** The wait call of a poll call is made with [poll_timespec timeout]. *)
Lemma poll_wait_call `{hdr : Headers} (pollset : fspr_pollset_t) (timeout : Z)
    (descriptors : bool) (w : wait_outcome) (ps' : fspr_pollset_t)
    (r : poll_result) :
  fspr_pollset_poll pollset timeout descriptors w = Some (ps', r) →
  ktrace (kqueue_fd ps')
  = ktrace (kqueue_fd pollset)
    ++ [sys_wait (to_int32 (nalloc pollset)) (poll_timespec timeout) (poll_num r)].
Proof.
  unfold fspr_pollset_poll, kevent_wait.
  destruct (match w with wait_error _ => _ | wait_ready _ => _ end)
    as [[events ret] errno].
  destruct (ret <? 0); [|destruct (ret =? 0)]; simpl.
  - by intros [= <- <-].
  - by intros [= <- <-].
  - destruct (fill_result_set _ _ _ _ _); simpl; [|done].
    by intros [= <- <-].
Qed.

(** With the macros of [bsd_headers], where a time is a count of
    microseconds, the seconds field is the whole seconds of the timeout and
    the nanoseconds field is its millisecond digit group, below 1000: the
    [timespec] denotes the timeout only when the timeout is a whole number
    of seconds. *)
Lemma poll_timespec_bsd (timeout : Z) :
  0 ≤ timeout < 2 ^ 63 →
  ∃ tv,
    poll_timespec (hdr := bsd_headers) timeout = Some tv
    ∧ tv_sec tv = timeout `div` 1000000
    ∧ tv_nsec tv = (timeout `div` 1000) `mod` 1000
    ∧ (timespec_nanos tv = 1000 * timeout ↔ timeout `mod` 1000000 = 0).
Proof.
  intros Ht. unfold poll_timespec.
  rewrite (proj2 (Z.ltb_ge timeout 0)) by lia.
  eexists. split; [done|]. unfold timespec_nanos. cbn -[Z.pow Z.quot Z.rem Z.modulo Z.div].
  rewrite Z.quot_div_nonneg, Z.rem_mod_nonneg, Z.quot_div_nonneg by
    (try apply Z.quot_pos; lia).
  assert (∀ x, 0 ≤ x < 2 ^ 63 → (x + 2 ^ 63) `mod` 2 ^ 64 - 2 ^ 63 = x) as Hlong.
  { intros x Hx. rewrite Z.mod_small; lia. }
  rewrite !Hlong by (Z.to_euclidean_division_equations; lia).
  repeat split; Z.to_euclidean_division_equations; lia.
Qed.

(** C8.  On a BSD host a timeout of one second and a half, 1500000
    microseconds, reaches the wait call as one second and 500 nanoseconds:
    the nanoseconds field is filled with [fspr_time_msec], the millisecond
    part of the timeout. *)
Theorem poll_timespec_msec_as_nsec :
  poll_timespec (hdr := bsd_headers) 1500000
    = Some {| tv_sec := 1; tv_nsec := 500 |}
  ∧ timespec_nanos {| tv_sec := 1; tv_nsec := 500 |} ≠ 1500000 * 1000
  ∧ ∃ ps' r,
      fspr_pollset_poll (hdr := bsd_headers) (fresh4 []) 1500000 false
        (wait_ready []) = Some (ps', r)
      ∧ ktrace (kqueue_fd ps')
        = [sys_wait 4 (Some {| tv_sec := 1; tv_nsec := 500 |}) 0].
Proof.
  split; [by vm_compute|]. split; [by vm_compute|].
  eexists _, _. split; vm_compute; reflexivity.
Qed.

(** ** More on event translation *)

(** Which bits of a 16-bit mask the translation sets. *)
Lemma get_kqueue_revent_bit_iff `{hdr : Headers} (event flags k : Z) :
  portable_masks_ok → 0 ≤ k < 16 →
  has_event (get_kqueue_revent event flags) (2 ^ k) ↔
    (event = EVFILT_READ ∧ APR_POLLIN = 2 ^ k)
    ∨ (event = EVFILT_WRITE ∧ APR_POLLOUT = 2 ^ k)
    ∨ (has_event flags EV_EOF ∧ APR_POLLHUP = 2 ^ k)
    ∨ (has_event flags EV_ERROR ∧ APR_POLLERR = 2 ^ k).
Proof.
  intros [Hbits _] Hk.
  rewrite !Forall_cons in Hbits.
  destruct Hbits as ([Ra Pa] & [Rb Pb] & [Rc Pc] & [Rd Pd] & _).
  rewrite has_event_testbit, get_kqueue_revent_testbit by lia.
  assert (∀ m, 0 ≤ Z.log2 m < 16 → m = 2 ^ Z.log2 m →
            Z.testbit m k = true ↔ m = 2 ^ k) as Hm.
  { intros m Rm Pm. rewrite Pm at 1. rewrite Z.pow2_bits_eqb by lia.
    rewrite Z.eqb_eq. split; [intros <-; done|].
    intros E. rewrite E, Z.log2_pow2; lia. }
  rewrite !orb_true_iff, !andb_true_iff, !Z.eqb_eq, !c_and_has_event.
  rewrite !Hm by done. tauto.
Qed.

(** Converting native flags to [fspr_int16_t] keeps every flag of the low
    16 bits, the sign bit included. *)
Lemma has_event_to_int16 (f m : Z) :
  0 ≤ m < 2 ^ 16 → has_event (to_int16 f) m ↔ has_event f m.
Proof.
  intros Hm. unfold has_event.
  assert (Z.land (to_int16 f) m = Z.land f m) as ->; [|done].
  apply Z.bits_inj'. intros n Hn. rewrite !Z.land_spec.
  destruct (decide (n < 16)) as [Hlt|Hge].
  - by rewrite to_int16_testbit by lia.
  - assert (Z.testbit m n = false) as ->.
    { destruct (decide (m = 0)) as [->|Hnz]; [apply Z.bits_0|].
      apply Z.bits_above_log2; [lia|].
      assert (Z.log2 m < 16); [|lia].
      apply Z.log2_lt_pow2; lia. }
    by rewrite !andb_false_r.
Qed.

Lemma to_int16_small (x : Z) : - 2 ^ 15 ≤ x < 2 ^ 15 → to_int16 x = x.
Proof. intros Hx. unfold to_int16. rewrite Z.mod_small; lia. Qed.

(** X1.  The translation is the empty mask exactly for an event that is
    neither a read nor a write event and has neither the end-of-file nor the
    error flag, and it never sets a bit of the 16-bit mask other than the
    four portable masks: each bit set is the mask of a filter or flag the
    event has. *)
Theorem get_kqueue_revent_range `{hdr : Headers} (event flags : Z) :
  portable_masks_ok →
  let rv := get_kqueue_revent event flags in
  (rv = 0 ↔ event ≠ EVFILT_READ ∧ event ≠ EVFILT_WRITE
            ∧ ¬ has_event flags EV_EOF ∧ ¬ has_event flags EV_ERROR)
  ∧ (∀ m, single_bit16 m → has_event rv m →
       (m = APR_POLLIN ∧ event = EVFILT_READ)
       ∨ (m = APR_POLLOUT ∧ event = EVFILT_WRITE)
       ∨ (m = APR_POLLHUP ∧ has_event flags EV_EOF)
       ∨ (m = APR_POLLERR ∧ has_event flags EV_ERROR)).
Proof.
  intros Hok rv. split.
  - split.
    + intros Hz.
      assert (∀ k, 0 ≤ k < 16 → ¬ has_event rv (2 ^ k)) as Hno.
      { intros k Hk. unfold has_event. rewrite Hz, Z.land_0_l. tauto. }
      pose proof Hok as [Hbits _]. rewrite !Forall_cons in Hbits.
      destruct Hbits as ([Ra Pa] & [Rb Pb] & [Rc Pc] & [Rd Pd] & _).
      repeat split; intros H.
      * apply (Hno (Z.log2 APR_POLLIN) Ra).
        apply get_kqueue_revent_bit_iff; try done. tauto.
      * apply (Hno (Z.log2 APR_POLLOUT) Rb).
        apply get_kqueue_revent_bit_iff; try done. tauto.
      * apply (Hno (Z.log2 APR_POLLHUP) Rd).
        apply get_kqueue_revent_bit_iff; try done. tauto.
      * apply (Hno (Z.log2 APR_POLLERR) Rc).
        apply get_kqueue_revent_bit_iff; try done. tauto.
    + intros (Hr & Hw & He & Hx). unfold rv, get_kqueue_revent.
      apply Z.eqb_neq in Hr, Hw. apply c_and_not_has_event in He, Hx.
      by rewrite Hr, Hw, He, Hx.
  - intros m [Rm Pm] Hm. rewrite Pm in Hm.
    apply get_kqueue_revent_bit_iff in Hm; try done.
    rewrite <- Pm in Hm. intuition auto.
Qed.

Lemma get_kqueue_revent_range_witness :
  portable_masks_ok (hdr := bsd_headers)
  ∧ (get_kqueue_revent (hdr := bsd_headers) (-3) 0x0001 = 0).
Proof.
  assert (portable_masks_ok (hdr := bsd_headers)) as Hok.
  { split.
    - repeat constructor; simpl; lia.
    - apply (bool_decide_unpack _). vm_compute. exact I. }
  split; [exact Hok|].
  apply (get_kqueue_revent_range (hdr := bsd_headers) (-3) 0x0001 Hok).
  repeat split; vm_compute; intros E; first [discriminate E | by apply E].
Defined.

(** X2.  The slot a poll call stores for an event keeps the record's
    descriptor, type, requested events and client data, and its returned
    events tell the event's filter and flags: the conversion of the native
    16-bit flags to [fspr_int16_t] loses neither the end-of-file flag nor
    the error flag. *)
Theorem result_slot_events `{hdr : Headers} (pfd : fspr_pollfd_t)
    (ke : kevent_t) :
  portable_masks_ok →
  0 ≤ EV_EOF < 2 ^ 16 → 0 ≤ EV_ERROR < 2 ^ 16 →
  - 2 ^ 15 ≤ filter ke < 2 ^ 15 →
  let slot := result_slot pfd ke in
  desc slot = desc pfd ∧ desc_type slot = desc_type pfd
  ∧ reqevents slot = reqevents pfd ∧ client_data slot = client_data pfd
  ∧ (has_event (rtnevents slot) APR_POLLIN ↔ filter ke = EVFILT_READ)
  ∧ (has_event (rtnevents slot) APR_POLLOUT ↔ filter ke = EVFILT_WRITE)
  ∧ (has_event (rtnevents slot) APR_POLLHUP ↔ has_event (kflags ke) EV_EOF)
  ∧ (has_event (rtnevents slot) APR_POLLERR ↔ has_event (kflags ke) EV_ERROR).
Proof.
  intros Hok Heof Herr Hflt slot. unfold slot, result_slot. cbn.
  rewrite (to_int16_small (filter ke)) by done.
  pose proof Hok as [Hbits Hdup]. rewrite !Forall_cons in Hbits.
  destruct Hbits as ([Ra Pa] & [Rb Pb] & [Rc Pc] & [Rd Pd] & _).
  rewrite !NoDup_cons, !elem_of_cons in Hdup.
  pose proof (get_kqueue_revent_bit_iff (filter ke) (to_int16 (kflags ke))
                _ Hok Ra) as HIN.
  pose proof (get_kqueue_revent_bit_iff (filter ke) (to_int16 (kflags ke))
                _ Hok Rb) as HOUT.
  pose proof (get_kqueue_revent_bit_iff (filter ke) (to_int16 (kflags ke))
                _ Hok Rc) as HERR.
  pose proof (get_kqueue_revent_bit_iff (filter ke) (to_int16 (kflags ke))
                _ Hok Rd) as HHUP.
  rewrite <- Pa in HIN. rewrite <- Pb in HOUT.
  rewrite <- Pc in HERR. rewrite <- Pd in HHUP.
  rewrite !has_event_to_int16 in HIN, HOUT, HERR, HHUP by done.
  repeat split; try done; intuition congruence.
Qed.

Lemma result_slot_events_witness :
  has_event (rtnevents (result_slot (hdr := bsd_headers) sock7_in ev7_read_eof))
    0x020
  ∧ desc (result_slot (hdr := bsd_headers) sock7_in ev7_read_eof) = desc sock7_in.
Proof.
  assert (portable_masks_ok (hdr := bsd_headers)) as Hok.
  { split.
    - repeat constructor; simpl; lia.
    - apply (bool_decide_unpack _). vm_compute. exact I. }
  assert (0 ≤ EV_EOF (Headers := bsd_headers) < 2 ^ 16) as Heof by (simpl; lia).
  assert (0 ≤ EV_ERROR (Headers := bsd_headers) < 2 ^ 16) as Herr by (simpl; lia).
  assert (- 2 ^ 15 ≤ filter ev7_read_eof < 2 ^ 15) as Hflt by (simpl; lia).
  pose proof (result_slot_events (hdr := bsd_headers) sock7_in ev7_read_eof
                Hok Heof Herr Hflt) as (Hd & _ & _ & _ & _ & _ & Hhup & _).
  split; [|exact Hd].
  apply Hhup. vm_compute. discriminate.
Defined.

(** ** More on add *)

(** When the status after the two guarded requests is the success status,
    every request made was accepted. *)
Lemma two_changes_success `{hdr : Headers} (pollset : fspr_pollset_t) (req : Z)
    (rd wr : kevent_t) (err : Z) :
  err ≠ APR_SUCCESS →
  (two_changes pollset req rd wr err).2 = APR_SUCCESS →
  let kq := kqueue_fd pollset in
  let kq1 := if c_and req APR_POLLIN then (kevent_change kq rd).1 else kq in
  let kq2 := if c_and req APR_POLLOUT then (kevent_change kq1 wr).1 else kq1 in
  (two_changes pollset req rd wr err).1.1 = kq2
  ∧ (c_and req APR_POLLIN = true → (kevent_change kq rd).2 ≠ -1)
  ∧ (c_and req APR_POLLOUT = true → (kevent_change kq1 wr).2 ≠ -1).
Proof.
  intros Herr. unfold two_changes.
  destruct (c_and req APR_POLLIN);
    [rewrite change_step_true|rewrite change_step_false]; cbn [fst snd].
  - destruct (Z.eqb_spec (kevent_change (kqueue_fd pollset) rd).2 (-1)) as [E1|E1].
    + apply Z.eqb_neq in Herr as Herr'. rewrite Herr', andb_false_r.
      rewrite change_step_false. cbn. done.
    + rewrite Z.eqb_refl, andb_true_r.
      destruct (c_and req APR_POLLOUT);
        [rewrite change_step_true|rewrite change_step_false]; cbn [fst snd].
      * destruct (Z.eqb_spec (kevent_change (kevent_change (kqueue_fd pollset) rd).1 wr).2 (-1)); done.
      * done.
  - rewrite Z.eqb_refl, andb_true_r.
    destruct (c_and req APR_POLLOUT);
      [rewrite change_step_true|rewrite change_step_false]; cbn [fst snd].
    + destruct (Z.eqb_spec (kevent_change (kqueue_fd pollset) wr).2 (-1)); done.
    + done.
Qed.

(** X3.  Whatever the mask, an add call makes at most two native requests
    and returns [APR_ENOMEM] when one of them is refused and success
    otherwise; on success its record goes to the tail of the Active ring
    and the count is incremented, on failure the record goes to the tail
    of the Free ring and the count stays; the Dead ring is never touched. *)
Theorem add_outcome `{hdr : Headers} (pollset : fspr_pollset_t)
    (descriptor : fspr_pollfd_t) :
  let ps' := (fspr_pollset_add pollset descriptor).1 in
  let rv := (fspr_pollset_add pollset descriptor).2 in
  (∃ calls,
     ktrace (kqueue_fd ps') = ktrace (kqueue_fd pollset) ++ calls
     ∧ rv = if existsb refused calls then APR_ENOMEM else APR_SUCCESS)
  ∧ dead_ring ps' = dead_ring pollset
  ∧ ((rv = APR_SUCCESS
      ∧ query_ring ps' = query_ring pollset ++ [next_record pollset]
      ∧ free_ring ps' = free_after_take pollset
      ∧ nelts ps' = to_uint32 (nelts pollset + 1))
     ∨ (rv ≠ APR_SUCCESS ∧ rv = APR_ENOMEM
        ∧ query_ring ps' = query_ring pollset
        ∧ free_ring ps' = free_after_take pollset ++ [next_record pollset]
        ∧ nelts ps' = nelts pollset)).
Proof.
  rewrite add_unfold. cbv zeta.
  destruct (two_changes_status pollset (reqevents descriptor)
              (add_read pollset descriptor) (add_write pollset descriptor)
              APR_ENOMEM) as (calls & Htrace & Hst).
  destruct (Z.eqb_spec (two_changes pollset (reqevents descriptor)
              (add_read pollset descriptor) (add_write pollset descriptor)
              APR_ENOMEM).2 APR_SUCCESS) as [E|E]; cbn.
  - split; [by exists calls|]. split; [done|]. by left.
  - split; [by exists calls|]. split; [done|]. right.
    repeat split; try done.
    rewrite Hst in *. by destruct (existsb refused calls).
Qed.

(** X4.  After an add call that returns success, the kernel queue holds,
    for each bit of the mask, the watch of the descriptor number for that
    filter, tagged with the record of the call; no other watch is changed. *)
Theorem add_registers `{hdr : Headers} (pollset : fspr_pollset_t)
    (descriptor : fspr_pollfd_t) :
  has_event EV_ADD EV_ADD →
  APR_ENOMEM ≠ APR_SUCCESS →
  (fspr_pollset_add pollset descriptor).2 = APR_SUCCESS →
  let watches := knotes (kqueue_fd pollset) in
  let watches' := knotes (kqueue_fd (fspr_pollset_add pollset descriptor).1) in
  let fd := os_fd descriptor in
  let tag := Some (next_record pollset) in
  (has_event (reqevents descriptor) APR_POLLIN →
   watches' !! (fd, EVFILT_READ) = Some tag)
  ∧ (has_event (reqevents descriptor) APR_POLLOUT →
     watches' !! (fd, EVFILT_WRITE) = Some tag)
  ∧ (∀ key,
       ¬ (has_event (reqevents descriptor) APR_POLLIN ∧ key = (fd, EVFILT_READ)) →
       ¬ (has_event (reqevents descriptor) APR_POLLOUT ∧ key = (fd, EVFILT_WRITE)) →
       watches' !! key = watches !! key).
Proof.
  intros Hadd Hne. rewrite add_unfold. cbv zeta.
  destruct (Z.eqb_spec (two_changes pollset (reqevents descriptor)
              (add_read pollset descriptor) (add_write pollset descriptor)
              APR_ENOMEM).2 APR_SUCCESS) as [Hst|Hst]; cbn [fst snd kqueue_fd];
    intros Hrv; [|done].
  destruct (two_changes_success pollset _ _ _ _ Hne Hst) as (-> & H1 & H2).
  destruct (c_and (reqevents descriptor) APR_POLLIN) eqn:Ein;
    destruct (c_and (reqevents descriptor) APR_POLLOUT) eqn:Eout;
    rewrite ?kevent_change_added by (first [exact Hadd | by apply H1 | by apply H2]);
    cbn [ident filter udata add_read add_write EV_SET];
    rewrite <- ?c_and_has_event, ?Ein, ?Eout;
    (split; [intros Hi|split; [intros Ho|intros key Hk1 Hk2]]);
    rewrite ?lookup_insert; repeat case_decide; try naive_solver;
    exfalso;
    first [ apply Hk1; split; [by apply c_and_has_event|done]
          | apply Hk2; split; [by apply c_and_has_event|done] ].
Qed.

Lemma add_registers_witness :
  knotes (kqueue_fd (fspr_pollset_add (hdr := bsd_headers) watching7 sock8_out).1)
    !! (8, -2) = Some (Some 1%nat)
  ∧ knotes (kqueue_fd (fspr_pollset_add (hdr := bsd_headers) watching7 sock8_out).1)
      !! (7, -1) = Some (Some 0%nat).
Proof.
  assert (has_event (EV_ADD (Headers := bsd_headers)) (EV_ADD (Headers := bsd_headers)))
    as Hadd by (vm_compute; discriminate).
  assert (APR_ENOMEM (Headers := bsd_headers) ≠ APR_SUCCESS (Headers := bsd_headers))
    as Hne by (vm_compute; discriminate).
  assert ((fspr_pollset_add (hdr := bsd_headers) watching7 sock8_out).2
          = APR_SUCCESS (Headers := bsd_headers)) as Hrv by (vm_compute; reflexivity).
  pose proof (add_registers (hdr := bsd_headers) watching7 sock8_out Hadd Hne Hrv)
    as (_ & Hout & Hother).
  split.
  - apply Hout. vm_compute. discriminate.
  - rewrite (Hother (7, -1)); [vm_compute; reflexivity| |];
      intros [_ E]; vm_compute in E; discriminate E.
Defined.

(** X5.  On a pollset whose rings share out the pool, the record an add
    call takes is on neither the Active nor the Dead ring: a record in use
    or waiting on the Dead ring is never handed out.  The pool grows by one
    record exactly when the Free ring is empty; after the call the record
    holds the descriptor and every other record is as it was. *)
Theorem add_record `{hdr : Headers} (pollset : fspr_pollset_t)
    (descriptor : fspr_pollfd_t) :
  rings_partition pollset →
  let ps' := (fspr_pollset_add pollset descriptor).1 in
  let r := next_record pollset in
  (r ∉ query_ring pollset) ∧ (r ∉ dead_ring pollset)
  ∧ length (pool ps')
    = (if bool_decide (free_ring pollset = []) then S (length (pool pollset))
       else length (pool pollset))
  ∧ pool ps' !! r = Some descriptor
  ∧ (∀ e, e ≠ r → pool ps' !! e = pool pollset !! e).
Proof.
  intros Hpart ps' r.
  destruct (rings_partition_exclusive pollset Hpart)
    as (Hone & Hin & _ & _ & _ & _).
  assert (pool ps' = pool_after_add pollset descriptor) as ->.
  { unfold ps'. rewrite add_unfold. cbv zeta. by destruct (_ =? _). }
  unfold r, pool_after_add, next_record. rewrite length_insert.
  destruct (free_ring pollset) as [|e rest] eqn:Efree.
  - rewrite bool_decide_eq_true_2 by done.
    assert (∀ l, l = query_ring pollset ∨ l = dead_ring pollset →
              length (pool pollset) ∉ l) as Hfresh.
    { intros l Hl Hmem.
      assert ((length (pool pollset) < length (pool pollset))%nat); [|lia].
      apply Hin. rewrite !elem_of_app. destruct Hl as [->| ->]; [left|right; left]; done. }
    split; [apply Hfresh; by left|]. split; [apply Hfresh; by right|].
    split; [rewrite length_app; simpl; lia|]. split.
    + apply list_lookup_insert_eq. rewrite length_app. simpl. lia.
    + intros e' Hne. rewrite list_lookup_insert_ne by done.
      destruct (decide (e' < length (pool pollset))%nat).
      * by rewrite lookup_app_l.
      * rewrite !lookup_ge_None_2; [done|lia|rewrite length_app; simpl; lia].
  - rewrite bool_decide_eq_false_2 by done.
    assert (e ∈ free_ring pollset) as He by (rewrite Efree; left).
    assert (e < length (pool pollset))%nat as Hlt.
    { apply Hin. rewrite !elem_of_app. right; right. first [done|left]. }
    destruct (Hone e Hlt) as [(_ & _ & Hf)|[(_ & _ & Hf)|(_ & Hq & Hd)]];
      try (exfalso; apply Hf; left).
    split; [done|]. split; [done|]. split; [done|]. split.
    + by apply list_lookup_insert_eq.
    + intros e' Hne. by apply list_lookup_insert_ne.
Qed.

Lemma add_record_witness :
  rings_partition one_dead
  ∧ (next_record one_dead ∉ dead_ring one_dead)
  ∧ length (pool (fspr_pollset_add (hdr := bsd_headers) one_dead sock8_out).1)
    = 3%nat.
Proof.
  assert (rings_partition one_dead) as Hpart by (vm_compute; reflexivity).
  pose proof (add_record (hdr := bsd_headers) one_dead sock8_out Hpart)
    as (_ & Hd & Hlen & _).
  split; [exact Hpart|]. split; [exact Hd|exact Hlen].
Defined.

(** ** More on remove *)

Lemma ring_scan_first (mem : list fspr_pollfd_t) (ptr : Z)
    (before : list elem_ptr) (ep : elem_ptr) (after : list elem_ptr) :
  Forall (λ e, ¬ holds_ptr mem ptr e) before → holds_ptr mem ptr ep →
  ring_scan mem ptr (before ++ ep :: after) = Some (ep, before ++ after).
Proof.
  unfold holds_ptr. intros Hbefore Hep.
  induction Hbefore as [|e before He Hbefore IH]; simpl.
  - by rewrite bool_decide_eq_true_2.
  - rewrite bool_decide_eq_false_2 by done. by rewrite IH.
Qed.

Lemma ring_scan_absent (mem : list fspr_pollfd_t) (ptr : Z)
    (ring : list elem_ptr) :
  Forall (λ e, ¬ holds_ptr mem ptr e) ring → ring_scan mem ptr ring = None.
Proof.
  unfold holds_ptr. induction 1 as [|e ring He Hring IH]; simpl; [done|].
  rewrite bool_decide_eq_false_2 by done. by rewrite IH.
Qed.

(** X6.  A remove call moves to the tail of the Dead ring the first record
    of the Active ring whose descriptor pointer is the one given, whatever
    the mask or the type of either descriptor, and no other: the records
    before it and after it, later ones with the same pointer included, stay
    on the Active ring in their order.  The Free ring, the pool and the
    count are not touched. *)
Theorem remove_first_match `{hdr : Headers} (pollset : fspr_pollset_t)
    (descriptor : fspr_pollfd_t) (before : list elem_ptr) (ep : elem_ptr)
    (after : list elem_ptr) :
  query_ring pollset = before ++ ep :: after →
  Forall (λ e, ¬ holds_ptr (pool pollset) (desc_ptr (desc descriptor)) e) before →
  holds_ptr (pool pollset) (desc_ptr (desc descriptor)) ep →
  let ps' := (fspr_pollset_remove pollset descriptor).1 in
  query_ring ps' = before ++ after
  ∧ dead_ring ps' = dead_ring pollset ++ [ep]
  ∧ free_ring ps' = free_ring pollset
  ∧ pool ps' = pool pollset
  ∧ nelts ps' = nelts pollset.
Proof.
  intros Hq Hbefore Hep. rewrite remove_unfold. cbv zeta. cbn.
  rewrite Hq, (ring_scan_first _ _ _ _ _ Hbefore Hep). done.
Qed.

Lemma remove_first_match_witness :
  query_ring (fspr_pollset_remove (hdr := bsd_headers) twice7 sock7_none).1
    = [0%nat; 2%nat]
  ∧ dead_ring (fspr_pollset_remove (hdr := bsd_headers) twice7 sock7_none).1
    = [1%nat].
Proof.
  assert (query_ring twice7 = [0%nat] ++ 1%nat :: [2%nat]) as Hq
    by (vm_compute; reflexivity).
  assert (Forall (λ e, ¬ holds_ptr (pool twice7) (desc_ptr (desc sock7_none)) e)
            [0%nat]) as Hbefore.
  { repeat constructor. vm_compute. discriminate. }
  assert (holds_ptr (pool twice7) (desc_ptr (desc sock7_none)) 1%nat) as Hep
    by (vm_compute; reflexivity).
  pose proof (remove_first_match (hdr := bsd_headers) twice7 sock7_none
                [0%nat] 1%nat [2%nat] Hq Hbefore Hep) as (Hq' & Hd' & _).
  split; [exact Hq'|exact Hd'].
Defined.

(** X7.  A remove call for a descriptor pointer that no record of the
    Active ring holds leaves the three rings, the pool and the count as
    they were: records on the Dead or Free ring are not looked at, so a
    descriptor already removed is not found again. *)
Theorem remove_no_match `{hdr : Headers} (pollset : fspr_pollset_t)
    (descriptor : fspr_pollfd_t) :
  Forall (λ e, ¬ holds_ptr (pool pollset) (desc_ptr (desc descriptor)) e)
    (query_ring pollset) →
  let ps' := (fspr_pollset_remove pollset descriptor).1 in
  query_ring ps' = query_ring pollset
  ∧ dead_ring ps' = dead_ring pollset
  ∧ free_ring ps' = free_ring pollset
  ∧ pool ps' = pool pollset
  ∧ nelts ps' = nelts pollset.
Proof.
  intros Hnone. rewrite remove_unfold. cbv zeta. cbn.
  rewrite (ring_scan_absent _ _ _ Hnone). cbn. by rewrite app_nil_r.
Qed.

Lemma remove_no_match_witness :
  query_ring (fspr_pollset_remove (hdr := bsd_headers) one_dead file9_none).1
    = [0%nat]
  ∧ dead_ring (fspr_pollset_remove (hdr := bsd_headers) one_dead file9_none).1
    = [1%nat].
Proof.
  assert (Forall (λ e, ¬ holds_ptr (pool one_dead) (desc_ptr (desc file9_none)) e)
            (query_ring one_dead)) as Hnone.
  { repeat constructor. vm_compute. discriminate. }
  pose proof (remove_no_match (hdr := bsd_headers) one_dead file9_none Hnone)
    as (Hq & Hd & _).
  split; [exact Hq|exact Hd].
Defined.

(** A request to delete a watch that is not registered is turned down,
    refusal script or not, and changes nothing. *)
Lemma kevent_change_delete_missing `{hdr : Headers} (kq : kqueue_t)
    (ch : kevent_t) :
  change_flags_ok → kflags ch = EV_DELETE →
  knotes kq !! (ident ch, filter ch) = None →
  (kevent_change kq ch).2 = -1.
Proof.
  intros (_ & Hdel%c_and_has_event & Hnadd%c_and_not_has_event) Hfl Hnone.
  unfold kevent_change, apply_change. rewrite Hfl, Hnadd, Hdel, Hnone.
  by destruct (faults kq) as [|[] ?].
Qed.

(** X8.  A remove call whose descriptor has neither the readable nor the
    writable bit in its mask makes no native call and returns success: the
    kernel queue is untouched, so whatever watches the descriptor has stay
    registered, while the Active ring is scanned as for any other mask. *)
Theorem remove_empty_mask `{hdr : Headers} (pollset : fspr_pollset_t)
    (descriptor other : fspr_pollfd_t) :
  ¬ has_event (reqevents descriptor) APR_POLLIN →
  ¬ has_event (reqevents descriptor) APR_POLLOUT →
  desc_ptr (desc other) = desc_ptr (desc descriptor) →
  let ps' := (fspr_pollset_remove pollset descriptor).1 in
  let ps'' := (fspr_pollset_remove pollset other).1 in
  (fspr_pollset_remove pollset descriptor).2 = APR_SUCCESS
  ∧ kqueue_fd ps' = kqueue_fd pollset
  ∧ query_ring ps' = query_ring ps''
  ∧ dead_ring ps' = dead_ring ps''
  ∧ free_ring ps' = free_ring ps''.
Proof.
  intros Hin Hout Hptr. rewrite !remove_unfold. cbv zeta.
  rewrite two_changes_none by done. cbn. by rewrite Hptr.
Qed.

Lemma remove_empty_mask_witness :
  (fspr_pollset_remove (hdr := bsd_headers) watching7 sock7_none).2 = 0
  ∧ knotes (kqueue_fd (fspr_pollset_remove (hdr := bsd_headers) watching7 sock7_none).1)
      !! (7, -1) = Some (Some 0%nat)
  ∧ dead_ring (fspr_pollset_remove (hdr := bsd_headers) watching7 sock7_none).1
    = [0%nat].
Proof.
  assert (¬ has_event (reqevents sock7_none) (APR_POLLIN (Headers := bsd_headers)))
    as Hin by (vm_compute; intros E; by apply E).
  assert (¬ has_event (reqevents sock7_none) (APR_POLLOUT (Headers := bsd_headers)))
    as Hout by (vm_compute; intros E; by apply E).
  assert (desc_ptr (desc sock7_in) = desc_ptr (desc sock7_none)) as Hptr
    by reflexivity.
  pose proof (remove_empty_mask (hdr := bsd_headers) watching7 sock7_none sock7_in
                Hin Hout Hptr) as (Hrv & Hkq & _ & Hd & _).
  split; [exact Hrv|]. split.
  - rewrite Hkq. vm_compute. reflexivity.
  - rewrite Hd. vm_compute. reflexivity.
Defined.

(** X9.  A remove call with the readable bit in its mask, for a descriptor
    number that has no read watch in the kernel queue, returns
    [APR_NOTFOUND] after that one refused request: no write unwatch
    follows, so the watches, a write watch of the same descriptor number
    included, are those from before the call. *)
Theorem remove_unwatched_read `{hdr : Headers} (pollset : fspr_pollset_t)
    (descriptor : fspr_pollfd_t) :
  change_flags_ok → APR_NOTFOUND ≠ APR_SUCCESS →
  has_event (reqevents descriptor) APR_POLLIN →
  knotes (kqueue_fd pollset) !! (os_fd descriptor, EVFILT_READ) = None →
  let ps' := (fspr_pollset_remove pollset descriptor).1 in
  (fspr_pollset_remove pollset descriptor).2 = APR_NOTFOUND
  ∧ ktrace (kqueue_fd ps')
    = ktrace (kqueue_fd pollset) ++ [sys_change (remove_read descriptor) (-1)]
  ∧ knotes (kqueue_fd ps') = knotes (kqueue_fd pollset).
Proof.
  intros Hflags Hne Hin%c_and_has_event Hnone.
  rewrite remove_unfold. cbv zeta. cbn [fst snd kqueue_fd].
  unfold two_changes. rewrite Hin, change_step_true.
  assert ((kevent_change (kqueue_fd pollset) (remove_read descriptor)).2 = -1)
    as E1 by (by apply kevent_change_delete_missing).
  rewrite E1. cbn [fst snd Z.eqb Pos.eqb].
  apply Z.eqb_neq in Hne as ->. rewrite andb_false_r, change_step_false.
  cbn [fst snd]. split; [done|]. split.
  - by rewrite kevent_change_trace, E1.
  - by apply kevent_change_refused.
Qed.

Lemma remove_unwatched_read_witness :
  (fspr_pollset_remove (hdr := bsd_headers) watching8 sock8_both).2 = 70015
  ∧ knotes (kqueue_fd (fspr_pollset_remove (hdr := bsd_headers) watching8 sock8_both).1)
      !! (8, -2) = Some (Some 0%nat).
Proof.
  assert (change_flags_ok (hdr := bsd_headers)) as Hflags.
  { repeat split; vm_compute; intros E; first [discriminate E | by apply E]. }
  assert (APR_NOTFOUND (Headers := bsd_headers) ≠ APR_SUCCESS (Headers := bsd_headers))
    as Hne by (vm_compute; discriminate).
  assert (has_event (reqevents sock8_both) (APR_POLLIN (Headers := bsd_headers)))
    as Hin by (vm_compute; discriminate).
  assert (knotes (kqueue_fd watching8)
            !! (os_fd sock8_both, EVFILT_READ (Headers := bsd_headers))
          = None) as Hnone by (vm_compute; reflexivity).
  pose proof (remove_unwatched_read (hdr := bsd_headers) watching8 sock8_both
                Hflags Hne Hin Hnone) as (Hrv & _ & Hkn).
  split; [exact Hrv|]. rewrite Hkn. vm_compute. reflexivity.
Defined.

(** ** Add, remove and poll together *)

(** On a kernel queue with no refusal left in its script, a request to add
    is accepted and registers the watch. *)
Lemma kevent_change_add_quiet `{hdr : Headers} (kq : kqueue_t) (ch : kevent_t) :
  faults kq = [] → has_event EV_ADD EV_ADD → kflags ch = EV_ADD →
  (kevent_change kq ch).2 = 0
  ∧ faults (kevent_change kq ch).1 = []
  ∧ knotes (kevent_change kq ch).1
    = <[(ident ch, filter ch) := udata ch]> (knotes kq).
Proof.
  intros Hq Hadd%c_and_has_event Hfl.
  unfold kevent_change, apply_change. by rewrite Hq, Hfl, Hadd.
Qed.

(** On such a queue a request to delete a registered watch is accepted and
    removes it. *)
Lemma kevent_change_delete_quiet `{hdr : Headers} (kq : kqueue_t)
    (ch : kevent_t) :
  faults kq = [] → change_flags_ok → kflags ch = EV_DELETE →
  is_Some (knotes kq !! (ident ch, filter ch)) →
  (kevent_change kq ch).2 = 0
  ∧ faults (kevent_change kq ch).1 = []
  ∧ knotes (kevent_change kq ch).1 = delete (ident ch, filter ch) (knotes kq).
Proof.
  intros Hq (_ & Hdel%c_and_has_event & Hnadd%c_and_not_has_event) Hfl [t Ht].
  unfold kevent_change, apply_change. by rewrite Hq, Hfl, Hnadd, Hdel, Ht.
Qed.

(** The record an add call takes is off the Active and the Dead ring and
    inside the pool the call leaves. *)
Lemma next_record_in_pool (pollset : fspr_pollset_t)
    (descriptor : fspr_pollfd_t) :
  rings_partition pollset →
  (next_record pollset ∉ query_ring pollset)
  ∧ (next_record pollset ∉ dead_ring pollset)
  ∧ (next_record pollset < length (pool_after_add pollset descriptor))%nat.
Proof.
  intros Hpart.
  destruct (rings_partition_exclusive pollset Hpart)
    as (Hone & Hin & _ & _ & _ & _).
  unfold pool_after_add, next_record. rewrite length_insert.
  destruct (free_ring pollset) as [|e rest] eqn:Efree.
  - rewrite length_app. simpl.
    split; [|split; [|lia]]; intros Hmem;
      (assert ((length (pool pollset) < length (pool pollset))%nat); [|lia]);
      apply Hin; rewrite !elem_of_app; [left|right; left]; done.
  - assert (e < length (pool pollset))%nat as Hlt.
    { apply Hin. rewrite !elem_of_app. right; right. left. }
    destruct (Hone e Hlt) as [(_ & _ & Hf)|[(_ & _ & Hf)|(_ & Hq & Hd)]];
      try (exfalso; apply Hf; left). done.
Qed.

(** An add call writes to its record only. *)
Lemma pool_after_add_other (pollset : fspr_pollset_t)
    (descriptor : fspr_pollfd_t) (e : elem_ptr) :
  e ≠ next_record pollset →
  pool_after_add pollset descriptor !! e = pool pollset !! e.
Proof.
  intros Hne. unfold pool_after_add.
  rewrite list_lookup_insert_ne by done.
  unfold next_record in Hne.
  destruct (free_ring pollset); [|done].
  destruct (decide (e < length (pool pollset))%nat).
  - by rewrite lookup_app_l.
  - rewrite !lookup_ge_None_2; [done|lia|rewrite length_app; simpl; lia].
Qed.

(** X10.  Round trip.  On a kernel queue that refuses nothing, adding a
    descriptor whose number has no watch yet and whose pointer no Active
    record holds, and removing it again, succeeds twice and leaves the
    watches and the Active ring as they were before the add; the record is
    at the tail of the Dead ring, and the count is one more than before. *)
Theorem add_remove_roundtrip `{hdr : Headers} (pollset : fspr_pollset_t)
    (descriptor : fspr_pollfd_t) :
  change_flags_ok → EVFILT_READ ≠ EVFILT_WRITE →
  rings_partition pollset →
  faults (kqueue_fd pollset) = [] →
  knotes (kqueue_fd pollset) !! (os_fd descriptor, EVFILT_READ) = None →
  knotes (kqueue_fd pollset) !! (os_fd descriptor, EVFILT_WRITE) = None →
  Forall (λ e, ¬ holds_ptr (pool pollset) (desc_ptr (desc descriptor)) e)
    (query_ring pollset) →
  let ps1 := (fspr_pollset_add pollset descriptor).1 in
  let ps2 := (fspr_pollset_remove ps1 descriptor).1 in
  (fspr_pollset_add pollset descriptor).2 = APR_SUCCESS
  ∧ (fspr_pollset_remove ps1 descriptor).2 = APR_SUCCESS
  ∧ knotes (kqueue_fd ps2) = knotes (kqueue_fd pollset)
  ∧ query_ring ps2 = query_ring pollset
  ∧ dead_ring ps2 = dead_ring pollset ++ [next_record pollset]
  ∧ free_ring ps2 = free_after_take pollset
  ∧ nelts ps2 = to_uint32 (nelts pollset + 1).
Proof.
  intros Hflags Hrw Hpart Hquiet Hr Hw Hnone.
  pose proof Hflags as (Hadd & _ & _).
  destruct (next_record_in_pool pollset descriptor Hpart) as (Hnq & _ & Hlt).
  (* the add *)
  assert (∃ kq1 sc1,
    two_changes pollset (reqevents descriptor) (add_read pollset descriptor)
      (add_write pollset descriptor) APR_ENOMEM = (kq1, sc1, APR_SUCCESS)
    ∧ faults kq1 = []
    ∧ knotes kq1
      = (if c_and (reqevents descriptor) APR_POLLOUT
         then <[(os_fd descriptor, EVFILT_WRITE) := Some (next_record pollset)]>
         else id)
          ((if c_and (reqevents descriptor) APR_POLLIN
            then <[(os_fd descriptor, EVFILT_READ) := Some (next_record pollset)]>
            else id) (knotes (kqueue_fd pollset)))) as (kq1 & sc1 & Hst1 & Hq1 & Hk1).
  { unfold two_changes.
    destruct (c_and (reqevents descriptor) APR_POLLIN);
      [rewrite change_step_true|rewrite change_step_false]; cbn [fst snd].
    - destruct (kevent_change_add_quiet (kqueue_fd pollset)
                  (add_read pollset descriptor) Hquiet Hadd eq_refl)
        as (Hret & Hq' & Hk').
      rewrite Hret. cbn [Z.eqb]. rewrite Z.eqb_refl, andb_true_r.
      destruct (c_and (reqevents descriptor) APR_POLLOUT);
        [rewrite change_step_true|rewrite change_step_false]; cbn [fst snd].
      + destruct (kevent_change_add_quiet _ (add_write pollset descriptor)
                    Hq' Hadd eq_refl) as (Hret2 & Hq2 & Hk2).
        rewrite Hret2. cbn [Z.eqb]. eexists _, _. split; [done|].
        split; [done|]. by rewrite Hk2, Hk'.
      + eexists _, _. split; [done|]. split; [done|]. by rewrite Hk'.
    - rewrite Z.eqb_refl, andb_true_r.
      destruct (c_and (reqevents descriptor) APR_POLLOUT);
        [rewrite change_step_true|rewrite change_step_false]; cbn [fst snd].
      + destruct (kevent_change_add_quiet (kqueue_fd pollset)
                    (add_write pollset descriptor) Hquiet Hadd eq_refl)
          as (Hret2 & Hq2 & Hk2).
        rewrite Hret2. cbn [Z.eqb]. eexists _, _. split; [done|].
        split; [done|]. by rewrite Hk2.
      + eexists _, _. split; [done|]. split; done. }
  cbv zeta. rewrite add_unfold. cbv zeta. rewrite Hst1. cbn [fst snd].
  rewrite Z.eqb_refl. cbn [fst snd].
  (* the remove *)
  assert (∀ ps1, kqueue_fd ps1 = kq1 → ∃ kq2 sc2,
    two_changes ps1 (reqevents descriptor) (remove_read descriptor)
      (remove_write descriptor) APR_NOTFOUND = (kq2, sc2, APR_SUCCESS)
    ∧ knotes kq2 = knotes (kqueue_fd pollset)) as Hrem.
  { intros ps1 Hkq1. unfold two_changes. rewrite Hkq1.
    destruct (c_and (reqevents descriptor) APR_POLLIN) eqn:Ein;
      [rewrite change_step_true|rewrite change_step_false]; cbn [fst snd].
    - destruct (kevent_change_delete_quiet kq1 (remove_read descriptor)
                  Hq1 Hflags eq_refl) as (Hret & Hq' & Hk').
      { cbn [ident filter remove_read EV_SET]. rewrite Hk1.
        destruct (c_and (reqevents descriptor) APR_POLLOUT); cbn [id];
          rewrite ?lookup_insert; repeat case_decide;
          first [done|by eexists]. }
      rewrite Hret. cbn [Z.eqb]. rewrite Z.eqb_refl, andb_true_r.
      destruct (c_and (reqevents descriptor) APR_POLLOUT) eqn:Eout;
        [rewrite change_step_true|rewrite change_step_false]; cbn [fst snd].
      + destruct (kevent_change_delete_quiet _ (remove_write descriptor)
                    Hq' Hflags eq_refl) as (Hret2 & Hq2 & Hk2).
        { cbn [ident filter remove_write remove_read EV_SET] in *.
          rewrite Hk', Hk1. cbn [id].
          rewrite lookup_delete, lookup_insert. repeat case_decide; simplify_eq.
          all: first [done|by eexists]. }
        rewrite Hret2. cbn [Z.eqb]. eexists _, _. split; [done|].
        cbn [ident filter remove_write remove_read EV_SET] in *.
        rewrite Hk2, Hk', Hk1. cbn [id]. apply map_eq. intros k.
        rewrite !lookup_delete, !lookup_insert.
        repeat case_decide; simplify_eq; done.
      + eexists _, _. split; [done|].
        cbn [ident filter remove_read EV_SET] in *.
        rewrite Hk', Hk1. cbn [id]. by apply delete_insert_id.
    - rewrite Z.eqb_refl, andb_true_r.
      destruct (c_and (reqevents descriptor) APR_POLLOUT) eqn:Eout;
        [rewrite change_step_true|rewrite change_step_false]; cbn [fst snd].
      + destruct (kevent_change_delete_quiet kq1 (remove_write descriptor)
                    Hq1 Hflags eq_refl) as (Hret2 & Hq2 & Hk2).
        { cbn [ident filter remove_write EV_SET]. rewrite Hk1. cbn [id].
          rewrite lookup_insert_eq. by eexists. }
        rewrite Hret2. cbn [Z.eqb]. eexists _, _. split; [done|].
        cbn [ident filter remove_write EV_SET] in *.
        rewrite Hk2, Hk1. cbn [id]. by apply delete_insert_id.
      + eexists _, _. split; [done|]. by rewrite Hk1. }
  rewrite remove_unfold. cbv zeta.
  match goal with
  | |- context [two_changes ?p _ (remove_read descriptor) _ _] =>
      destruct (Hrem p eq_refl) as (kq2 & sc2 & Hst2 & Hk2)
  end.
  rewrite Hst2. cbn [fst snd pool query_ring].
  assert (ring_scan (pool_after_add pollset descriptor)
            (desc_ptr (desc descriptor))
            (query_ring pollset ++ [next_record pollset])
          = Some (next_record pollset, query_ring pollset ++ [])) as ->.
  { apply ring_scan_first.
    - rewrite Forall_forall in Hnone |- *. intros e He.
      unfold holds_ptr in *. rewrite pool_after_add_other; [by apply Hnone|].
      intros ->. done.
    - unfold holds_ptr, pool_after_add.
      unfold pool_after_add in Hlt. rewrite length_insert in Hlt.
      by rewrite list_lookup_insert_eq. }
  cbn. rewrite app_nil_r. done.
Qed.

Lemma add_remove_roundtrip_witness :
  knotes (kqueue_fd
            (fspr_pollset_remove (hdr := bsd_headers)
               (fspr_pollset_add (hdr := bsd_headers) watching8 sock7).1 sock7).1)
  = knotes (kqueue_fd watching8)
  ∧ query_ring
      (fspr_pollset_remove (hdr := bsd_headers)
         (fspr_pollset_add (hdr := bsd_headers) watching8 sock7).1 sock7).1
    = query_ring watching8.
Proof.
  assert (change_flags_ok (hdr := bsd_headers)) as Hflags.
  { repeat split; vm_compute; intros E; first [discriminate E | by apply E]. }
  assert (EVFILT_READ (Headers := bsd_headers) ≠ EVFILT_WRITE (Headers := bsd_headers))
    as Hrw by (vm_compute; discriminate).
  assert (rings_partition watching8) as Hpart by (vm_compute; reflexivity).
  assert (faults (kqueue_fd watching8) = []) as Hquiet by (vm_compute; reflexivity).
  assert (knotes (kqueue_fd watching8)
            !! (os_fd sock7, EVFILT_READ (Headers := bsd_headers)) = None)
    as Hr by (vm_compute; reflexivity).
  assert (knotes (kqueue_fd watching8)
            !! (os_fd sock7, EVFILT_WRITE (Headers := bsd_headers)) = None)
    as Hw by (vm_compute; reflexivity).
  assert (Forall (λ e, ¬ holds_ptr (pool watching8) (desc_ptr (desc sock7)) e)
            (query_ring watching8)) as Hnone.
  { repeat constructor. vm_compute. discriminate. }
  pose proof (add_remove_roundtrip (hdr := bsd_headers) watching8 sock7
                Hflags Hrw Hpart Hquiet Hr Hw Hnone) as (_ & _ & Hk & Hq & _).
  split; [exact Hk|exact Hq].
Defined.



(** ** Runs: the count, the buffers and the tags *)

Lemma to_uint32_range (x : Z) : 0 ≤ to_uint32 x < 2 ^ 32.
Proof. unfold to_uint32. apply Z.mod_pos_bound. lia. Qed.

Lemma to_uint32_succ (a k : Z) :
  to_uint32 (to_uint32 (a + 1) + k) = to_uint32 (a + (1 + k)).
Proof.
  unfold to_uint32. rewrite Zplus_mod_idemp_l. f_equal. lia.
Qed.

(** Along a run the count goes up by one, as a 32-bit unsigned number, at
    each add call that returns success and at no other call, and the
    Active ring grows by at most that many records. *)
Lemma run_count `{hdr : Headers} (ops : list op) (pollset ps' : fspr_pollset_t)
    (rvs : list Z) :
  0 ≤ nelts pollset < 2 ^ 32 →
  run pollset ops = Some (ps', rvs) →
  nelts ps' = to_uint32 (nelts pollset + Z.of_nat (successful_adds ops rvs))
  ∧ (length (query_ring ps')
     ≤ length (query_ring pollset) + successful_adds ops rvs)%nat
  ∧ length rvs = length ops.
Proof.
  revert pollset rvs. induction ops as [|o ops IH]; intros pollset rvs Hn; simpl.
  - intros [= <- <-]. simpl. rewrite Z.add_0_r. unfold to_uint32.
    rewrite Z.mod_small by done. split; [done|]. split; [lia|done].
  - destruct (step pollset o) as [[ps1 rv]|] eqn:E; [|done]. simpl.
    destruct (run ps1 ops) as [[ps2 rvs2]|] eqn:E2; [|done]. simpl.
    intros [= <- <-].
    destruct o as [d|d|t ds w]; simpl in E.
    + injection E as E. rewrite add_unfold in E. cbv zeta in E.
      destruct (Z.eqb_spec (two_changes pollset (reqevents d)
                  (add_read pollset d) (add_write pollset d) APR_ENOMEM).2
                  APR_SUCCESS) as [Hs|Hs];
        injection E as <- <-.
      * apply IH in E2 as (Hc & Hl & Hlen); [|apply to_uint32_range].
        cbn in Hc, Hl. rewrite Hs, Z.eqb_refl. simpl.
        rewrite Hc, to_uint32_succ. split; [f_equal; lia|].
        rewrite length_app in Hl. simpl in Hl. split; [lia|simpl; by rewrite Hlen].
      * apply IH in E2 as (Hc & Hl & Hlen); [|exact Hn]. cbn in Hc, Hl.
        apply Z.eqb_neq in Hs. rewrite Hs. simpl.
        split; [done|]. split; [done|simpl; by rewrite Hlen].
    + injection E as E. rewrite remove_unfold in E. cbv zeta in E.
      injection E as <- <-.
      apply IH in E2 as (Hc & Hl & Hlen); [|exact Hn]. cbn in Hc, Hl.
      split; [done|]. split; [|simpl; by rewrite Hlen].
      etrans; [exact Hl|]. apply Nat.add_le_mono_r.
      destruct (ring_scan _ _ _) as [[ep rest]|] eqn:Es; cbn; [|done].
      apply ring_scan_Some in Es as (b & a & -> & -> & _).
      rewrite !length_app. simpl. lia.
    + destruct (fspr_pollset_poll pollset t ds w) as [[ps1' r]|] eqn:Ep; [|done].
      simpl in E. injection E as <- <-.
      apply poll_rings in Ep as (_ & Hn1 & _ & Hq1 & _).
      destruct (IH ps1' rvs2) as (Hc & Hl & Hlen); [by rewrite Hn1|done|].
      rewrite Hn1, Hq1 in *. split; [done|]. split; [done|simpl; by rewrite Hlen].
Qed.

(** X12.  After any sequence of calls on a new pollset, the count is the
    number of add calls that returned success, as a 32-bit unsigned number:
    remove and poll never change it.  The Active ring holds at most that
    many records. *)
Theorem count_counts_adds `{hdr : Headers} (size fl : Z) (kq : kqueue_t)
    (ops : list op) (pollset : fspr_pollset_t) (rvs : list Z) :
  run (fspr_pollset_create size fl kq).1 ops = Some (pollset, rvs) →
  nelts pollset = to_uint32 (Z.of_nat (successful_adds ops rvs))
  ∧ (length (query_ring pollset) ≤ successful_adds ops rvs)%nat
  ∧ length rvs = length ops.
Proof.
  intros Hrun. apply run_count in Hrun; [|simpl; lia]. exact Hrun.
Qed.

Lemma count_counts_adds_witness :
  ∃ pollset rvs,
    run (hdr := bsd_headers)
      (fspr_pollset_create (hdr := bsd_headers) 4 0 (new_kqueue [false; true])).1
      [op_add sock7; op_add sock7_in; op_add file9_none; op_remove file9_none;
       op_poll 0 true (wait_ready [ev7_read_eof]); op_remove sock7_in]
    = Some (pollset, rvs)
    ∧ nelts pollset = 2 ∧ (length (query_ring pollset) ≤ 2)%nat.
Proof.
  eexists _, _.
  match goal with
  | |- ?R = _ ∧ _ => assert (R = Some (_, _)) as Hrun by (vm_compute; reflexivity)
  end.
  split; [exact Hrun|].
  pose proof (count_counts_adds (hdr := bsd_headers) _ _ _ _ _ _ Hrun)
    as (Hc & Hl & _).
  split; [exact Hc|exact Hl].
Defined.


Lemma fill_result_set_length `{hdr : Headers} (mem : list fspr_pollfd_t)
    (events : list kevent_t) (n i : nat) (results results' : list fspr_pollfd_t) :
  fill_result_set mem events i n results = Some results' →
  length results' = length results.
Proof.
  revert i results. induction n as [|n IH]; intros i results; simpl.
  - by intros [= <-].
  - destruct (events !! i) as [ke|]; [|done]. simpl.
    destruct (udata ke) as [e|]; [|done]. simpl.
    destruct (mem !! e) as [pfd|]; [|done]. simpl.
    case_bool_decide; [|done].
    intros Hrun%IH. by rewrite Hrun, length_insert.
Qed.

(** A poll call that returns leaves the watches and the refusal script of
    the kernel queue alone; its event buffer is the one the wait call
    filled and its result buffer keeps its length. *)
Lemma poll_kernel `{hdr : Headers} (pollset : fspr_pollset_t) (timeout : Z)
    (descriptors : bool) (w : wait_outcome) (ps' : fspr_pollset_t)
    (r : poll_result) :
  fspr_pollset_poll pollset timeout descriptors w = Some (ps', r) →
  knotes (kqueue_fd ps') = knotes (kqueue_fd pollset)
  ∧ faults (kqueue_fd ps') = faults (kqueue_fd pollset)
  ∧ flags ps' = flags pollset
  ∧ length (result_set ps') = length (result_set pollset)
  ∧ ke_set ps'
    = match w with
      | wait_error _ => ke_set pollset
      | wait_ready evs =>
          let got := take (Z.to_nat (to_int32 (nalloc pollset))) evs in
          got ++ drop (length got) (ke_set pollset)
      end.
Proof.
  unfold fspr_pollset_poll, kevent_wait.
  destruct w as [e|evs]; cbn -[Z.to_nat to_int32].
  - by intros [= <- <-].
  - destruct (_ <? 0); [|destruct (_ =? 0)]; cbn -[Z.to_nat to_int32].
    + by intros [= <- <-].
    + by intros [= <- <-].
    + destruct (fill_result_set _ _ _ _ _) as [results'|] eqn:E;
        cbn -[Z.to_nat to_int32]; [|done].
      intros [= <- <-]. cbn -[Z.to_nat to_int32].
      by rewrite (fill_result_set_length _ _ _ _ _ _ E).
Qed.





(** A change request keeps a property of the tags of all watches when the
    tag it carries has the property, or when it is not flagged to add. *)
Lemma apply_change_tags `{hdr : Headers} (P : option elem_ptr → Prop)
    (watches : gmap (Z * Z) (option elem_ptr)) (ch : kevent_t) :
  (∀ key tag, watches !! key = Some tag → P tag) →
  (has_event (kflags ch) EV_ADD → P (udata ch)) →
  ∀ key tag, (apply_change watches ch).1 !! key = Some tag → P tag.
Proof.
  intros Hold Hnew. unfold apply_change.
  destruct (c_and (kflags ch) EV_ADD) eqn:Ea.
  - cbn [fst]. intros key tag. rewrite lookup_insert. case_decide.
    + intros [= <-]. by apply Hnew, c_and_has_event.
    + apply Hold.
  - destruct (c_and (kflags ch) EV_DELETE); [|apply Hold].
    destruct (watches !! (ident ch, filter ch)); cbn [fst]; [|apply Hold].
    intros key tag. rewrite lookup_delete. case_decide; [done|apply Hold].
Qed.

Lemma kevent_change_tags `{hdr : Headers} (P : option elem_ptr → Prop)
    (kq : kqueue_t) (ch : kevent_t) :
  (∀ key tag, knotes kq !! key = Some tag → P tag) →
  (has_event (kflags ch) EV_ADD → P (udata ch)) →
  ∀ key tag, knotes (kevent_change kq ch).1 !! key = Some tag → P tag.
Proof.
  intros Hold Hnew. unfold kevent_change.
  pose proof (apply_change_tags P (knotes kq) ch Hold Hnew) as Happ.
  destruct (apply_change (knotes kq) ch) as [watches ret].
  by destruct (faults kq) as [|[] ?].
Qed.

Lemma two_changes_tags `{hdr : Headers} (P : option elem_ptr → Prop)
    (pollset : fspr_pollset_t) (req : Z) (rd wr : kevent_t) (err : Z) :
  (∀ key tag, knotes (kqueue_fd pollset) !! key = Some tag → P tag) →
  (has_event (kflags rd) EV_ADD → P (udata rd)) →
  (has_event (kflags wr) EV_ADD → P (udata wr)) →
  ∀ key tag,
    knotes (two_changes pollset req rd wr err).1.1 !! key = Some tag → P tag.
Proof.
  intros Hold Hrd Hwr. unfold two_changes.
  destruct (c_and req APR_POLLIN);
    [rewrite change_step_true|rewrite change_step_false]; cbn [fst snd];
    (destruct (c_and req APR_POLLOUT && _);
     [rewrite change_step_true|rewrite change_step_false]); cbn [fst snd];
    repeat apply kevent_change_tags; done.
Qed.

Lemma step_tags_in_pool `{hdr : Headers} (pollset : fspr_pollset_t) (o : op)
    (ps' : fspr_pollset_t) (rv : Z) :
  ¬ has_event EV_DELETE EV_ADD →
  rings_partition pollset → tags_in_pool pollset →
  step pollset o = Some (ps', rv) → tags_in_pool ps'.
Proof.
  unfold tags_in_pool. intros Hdel Hpart Htags.
  destruct o as [d|d|t ds w]; simpl.
  - intros [= E]. apply (f_equal fst) in E. simpl in E. subst ps'.
    destruct (next_record_in_pool pollset d Hpart) as (_ & _ & Hlt).
    assert (length (pool pollset) ≤ length (pool_after_add pollset d))%nat as Hle.
    { unfold pool_after_add. rewrite length_insert.
      destruct (free_ring pollset); [rewrite length_app; simpl; lia|done]. }
    rewrite add_unfold. cbv zeta.
    assert (∀ key tag,
      knotes (two_changes pollset (reqevents d) (add_read pollset d)
                (add_write pollset d) APR_ENOMEM).1.1 !! key = Some tag →
      ∃ e, tag = Some e ∧ (e < length (pool_after_add pollset d))%nat) as H.
    { apply two_changes_tags.
      - intros key tag Hk. destruct (Htags key tag Hk) as (e & -> & He).
        exists e. split; [done|lia].
      - intros _. by eexists.
      - intros _. by eexists. }
    by destruct (_ =? _).
  - intros [= E]. apply (f_equal fst) in E. simpl in E. subst ps'.
    rewrite remove_unfold. cbv zeta. cbn [kqueue_fd pool].
    apply two_changes_tags; [done| |]; intros Hadd; by destruct Hdel.
  - destruct (fspr_pollset_poll pollset t ds w) as [[ps1 r]|] eqn:E; [|done].
    simpl. intros [= <- <-].
    pose proof (poll_rings _ _ _ _ _ _ E) as (Hp & _).
    pose proof (poll_kernel _ _ _ _ _ _ E) as (Hk & _).
    by rewrite Hp, Hk.
Qed.

Lemma run_tags_in_pool `{hdr : Headers} (ops : list op)
    (pollset ps' : fspr_pollset_t) (rvs : list Z) :
  ¬ has_event EV_DELETE EV_ADD →
  rings_partition pollset → tags_in_pool pollset →
  run pollset ops = Some (ps', rvs) → tags_in_pool ps'.
Proof.
  intros Hdel. revert pollset rvs.
  induction ops as [|o ops IH]; intros pollset rvs Hpart Htags; simpl.
  - by intros [= <- <-].
  - destruct (step pollset o) as [[ps1 rv]|] eqn:E; [|done]. simpl.
    destruct (run ps1 ops) as [[ps2 rvs2]|] eqn:E2; [|done]. simpl.
    intros [= <- <-]. eapply IH; [| |done].
    + by eapply step_rings_partition.
    + by eapply step_tags_in_pool.
Qed.

(** X14.  After any sequence of calls on a new pollset over a new kernel
    queue, every watch registered in the queue is tagged with a record of
    the pool: records are never given back, so the tag of a watch, even of
    one left behind for a removed descriptor, still names a record that a
    poll call can read. *)
Theorem watches_name_records `{hdr : Headers} (size fl : Z)
    (script : list bool) (ops : list op) (pollset : fspr_pollset_t)
    (rvs : list Z) :
  ¬ has_event EV_DELETE EV_ADD →
  run (fspr_pollset_create size fl (new_kqueue script)).1 ops
    = Some (pollset, rvs) →
  ∀ key tag, knotes (kqueue_fd pollset) !! key = Some tag →
    ∃ e pfd, tag = Some e ∧ pool pollset !! e = Some pfd.
Proof.
  intros Hdel Hrun key tag Hk.
  assert (tags_in_pool pollset) as Htags.
  { eapply run_tags_in_pool; [exact Hdel| | |exact Hrun].
    - apply create_rings_partition.
    - intros k t. simpl. by rewrite lookup_empty. }
  destruct (Htags key tag Hk) as (e & -> & Hlt).
  destruct (lookup_lt_is_Some_2 _ _ Hlt) as [pfd Hpfd].
  by exists e, pfd.
Qed.

Lemma watches_name_records_witness :
  ∃ pollset rvs,
    run (hdr := bsd_headers)
      (fspr_pollset_create (hdr := bsd_headers) 4 0 (new_kqueue [false; true])).1
      [op_add sock7; op_add sock8_out; op_remove sock7_none;
       op_poll 0 false (wait_ready [])]
    = Some (pollset, rvs)
    ∧ ∃ e pfd, Some 0%nat = Some e ∧ pool pollset !! e = Some pfd.
Proof.
  eexists _, _.
  match goal with
  | |- ?R = _ ∧ _ => assert (R = Some (_, _)) as Hrun by (vm_compute; reflexivity)
  end.
  split; [exact Hrun|].
  assert (¬ has_event (EV_DELETE (Headers := bsd_headers))
            (EV_ADD (Headers := bsd_headers))) as Hdel
    by (vm_compute; intros E; by apply E).
  apply (watches_name_records (hdr := bsd_headers) _ _ _ _ _ _ Hdel Hrun
           (7, -1) (Some 0%nat)).
  vm_compute. reflexivity.
Defined.

(** ** Creation *)



(** X16.  [fspr_pollset_create] fails in three ways only.  In a threaded
    build, when the mutex of a thread-safe pollset cannot be created, it
    returns 1, the value of the comparison, whatever status the mutex
    creation returned, and a null pollset.  In an unthreaded build a
    thread-safe pollset is refused with [APR_ENOTIMPL] and a null pollset.
    When the kernel queue cannot be opened it returns [APR_ENOMEM], and the
    pollset pointer is left on the object, which has no queue, no rings and
    no result buffer. *)
Theorem create_failure `{hdr : Headers} `{thr : ThreadHeaders}
    (size flags mutex_rv : Z) (kq : option kqueue_t) :
  (∀ ps, (Create.fspr_pollset_create size flags mutex_rv kq).1
         ≠ Create.created_pollset ps) →
  (Create.fspr_pollset_create size flags mutex_rv kq = (Create.created_null, 1)
   ∧ APR_HAS_THREADS = true ∧ has_event flags APR_POLLSET_THREADSAFE
   ∧ mutex_rv ≠ APR_SUCCESS)
  ∨ (Create.fspr_pollset_create size flags mutex_rv kq
     = (Create.created_null, APR_ENOTIMPL)
     ∧ APR_HAS_THREADS = false ∧ has_event flags APR_POLLSET_THREADSAFE)
  ∨ (Create.fspr_pollset_create size flags mutex_rv kq
     = (Create.created_without_queue, APR_ENOMEM)
     ∧ kq = None).
Proof.
  unfold Create.fspr_pollset_create.
  destruct APR_HAS_THREADS eqn:Ht, (c_and flags APR_POLLSET_THREADSAFE) eqn:Ef;
    cbn [andb negb];
    try (destruct (Z.eqb_spec mutex_rv APR_SUCCESS) as [Em|Em]; cbn [Z.eqb negb]);
    try apply c_and_has_event in Ef;
    try (left; done); try (right; left; done);
    (destruct kq as [k|]; [|right; right; done]);
    intros Hno; exfalso; by eapply Hno.
Qed.

Lemma create_failure_witness :
  Create.fspr_pollset_create (hdr := bsd_headers) (thr := bsd_threads)
    4 1 12 (Some (new_kqueue [])) = (Create.created_null, 1).
Proof.
  assert (∀ ps,
    (Create.fspr_pollset_create (hdr := bsd_headers) (thr := bsd_threads)
       4 1 12 (Some (new_kqueue []))).1 ≠ Create.created_pollset ps) as Hno.
  { intros ps. vm_compute. discriminate. }
  destruct (create_failure (hdr := bsd_headers) (thr := bsd_threads)
              4 1 12 (Some (new_kqueue [])) Hno)
    as [(H & _)|[(_ & Ht & _)|(_ & Hk)]].
  - exact H.
  - discriminate Ht.
  - discriminate Hk.
Defined.

(** ** More on poll *)

(** X17.  A poll call that returns has made one native call, the wait
    call, for at most [nalloc] events and with the converted timeout; it
    has registered and unregistered nothing, and the Active ring, the count
    and the records are as before the call. *)
Theorem poll_native_call `{hdr : Headers} (pollset : fspr_pollset_t)
    (timeout : Z) (descriptors : bool) (w : wait_outcome)
    (ps' : fspr_pollset_t) (r : poll_result) :
  fspr_pollset_poll pollset timeout descriptors w = Some (ps', r) →
  ktrace (kqueue_fd ps')
  = ktrace (kqueue_fd pollset)
    ++ [sys_wait (to_int32 (nalloc pollset)) (poll_timespec timeout) (poll_num r)]
  ∧ knotes (kqueue_fd ps') = knotes (kqueue_fd pollset)
  ∧ faults (kqueue_fd ps') = faults (kqueue_fd pollset)
  ∧ query_ring ps' = query_ring pollset
  ∧ nelts ps' = nelts pollset
  ∧ pool ps' = pool pollset.
Proof.
  intros Hrun.
  pose proof (poll_wait_call _ _ _ _ _ _ Hrun) as Htrace.
  pose proof (poll_kernel _ _ _ _ _ _ Hrun) as (Hk & Hf & _).
  pose proof (poll_rings _ _ _ _ _ _ Hrun) as (Hp & Hn & _ & Hq & _).
  done.
Qed.

Lemma poll_native_call_witness :
  ∃ ps' r,
    fspr_pollset_poll (hdr := bsd_headers) one_dead (-1) true
      (wait_ready [ev7_read_eof]) = Some (ps', r)
    ∧ ktrace (kqueue_fd ps')
      = ktrace (kqueue_fd one_dead) ++ [sys_wait 4 None 1]
    ∧ knotes (kqueue_fd ps') = knotes (kqueue_fd one_dead).
Proof.
  eexists _, _.
  match goal with
  | |- ?R = _ ∧ _ => assert (R = Some (_, _)) as Hrun by (vm_compute; reflexivity)
  end.
  split; [exact Hrun|].
  pose proof (poll_native_call (hdr := bsd_headers) _ _ _ _ _ _ Hrun)
    as (Ht & Hk & _).
  split; [exact Ht|exact Hk].
Defined.

(** The loop writes to the slots it goes through only. *)
Lemma fill_result_set_frame `{hdr : Headers} (mem : list fspr_pollfd_t)
    (events : list kevent_t) (n i : nat) (results results' : list fspr_pollfd_t) :
  fill_result_set mem events i n results = Some results' →
  ∀ j, (j < i ∨ i + n ≤ j)%nat → results' !! j = results !! j.
Proof.
  revert i results. induction n as [|n IH]; intros i results; simpl.
  - by intros [= <-].
  - destruct (events !! i) as [ke|]; [|done]. simpl.
    destruct (udata ke) as [e|]; [|done]. simpl.
    destruct (mem !! e) as [pfd|]; [|done]. simpl.
    case_bool_decide; [|done].
    intros Hrun j Hj. rewrite (IH _ _ Hrun) by lia.
    apply list_lookup_insert_ne. lia.
Qed.

(** X18.  A poll call that reports N events rewrites the first N slots of
    the result buffer and no other: the slots from N on keep what earlier
    calls left in them, and when the call fails or times out the whole
    result buffer is as before. *)
Theorem poll_result_frame `{hdr : Headers} (pollset : fspr_pollset_t)
    (timeout : Z) (descriptors : bool) (w : wait_outcome)
    (ps' : fspr_pollset_t) (r : poll_result) :
  fspr_pollset_poll pollset timeout descriptors w = Some (ps', r) →
  length (result_set ps') = length (result_set pollset)
  ∧ (∀ j, (Z.to_nat (poll_num r) ≤ j)%nat →
       result_set ps' !! j = result_set pollset !! j)
  ∧ (poll_num r ≤ 0 → result_set ps' = result_set pollset).
Proof.
  intros Hrun.
  pose proof (poll_kernel _ _ _ _ _ _ Hrun) as (_ & _ & _ & Hlen & _).
  split; [done|]. revert Hrun. unfold fspr_pollset_poll.
  destruct (kevent_wait _ _ _ _ _) as [[[kq events] ret] errno].
  destruct (Z.ltb_spec ret 0); [|destruct (Z.eqb_spec ret 0)]; simpl.
  - by intros [= <- <-].
  - by intros [= <- <-].
  - destruct (fill_result_set _ _ _ _ _) as [results'|] eqn:E; simpl; [|done].
    intros [= <- <-]. cbn. split; [|lia].
    intros j Hj. apply (fill_result_set_frame _ _ _ _ _ _ E). lia.
Qed.

Lemma poll_result_frame_witness :
  ∃ ps' r,
    fspr_pollset_poll (hdr := bsd_headers) one_dead (-1) true
      (wait_ready [ev7_read_eof]) = Some (ps', r)
    ∧ result_set ps' !! 1%nat = result_set one_dead !! 1%nat.
Proof.
  eexists _, _.
  match goal with
  | |- ?R = _ ∧ _ => assert (R = Some (_, _)) as Hrun by (vm_compute; reflexivity)
  end.
  split; [exact Hrun|].
  pose proof (poll_result_frame (hdr := bsd_headers) _ _ _ _ _ _ Hrun)
    as (_ & Hframe & _).
  apply Hframe. vm_compute. lia.
Defined.

(** ** A failed add and the next add *)

(** A request to add keeps a watch that already carries its tag. *)
Lemma kevent_change_same_tag `{hdr : Headers} (kq : kqueue_t) (ch : kevent_t)
    (key : Z * Z) :
  has_event EV_ADD EV_ADD → kflags ch = EV_ADD →
  knotes kq !! key = Some (udata ch) →
  knotes (kevent_change kq ch).1 !! key = Some (udata ch).
Proof.
  intros Hadd%c_and_has_event Hfl Hkey.
  unfold kevent_change, apply_change. rewrite Hfl, Hadd.
  destruct (faults kq) as [|[] ?]; cbn [fst knotes]; try done;
    rewrite lookup_insert; by case_decide.
Qed.

Lemma two_changes_same_tag `{hdr : Headers} (pollset : fspr_pollset_t)
    (req : Z) (rd wr : kevent_t) (err : Z) (key : Z * Z) :
  has_event EV_ADD EV_ADD → kflags rd = EV_ADD → kflags wr = EV_ADD →
  udata wr = udata rd →
  knotes (kqueue_fd pollset) !! key = Some (udata rd) →
  knotes (two_changes pollset req rd wr err).1.1 !! key = Some (udata rd).
Proof.
  intros Hadd Hrd Hwr Htag Hkey. unfold two_changes.
  destruct (c_and req APR_POLLIN);
    [rewrite change_step_true|rewrite change_step_false]; cbn [fst snd];
    (destruct (c_and req APR_POLLOUT && _);
     [rewrite change_step_true|rewrite change_step_false]); cbn [fst snd];
    repeat first
      [ apply kevent_change_same_tag; [done|done|]
      | rewrite <- Htag; apply kevent_change_same_tag; [done|done|];
        rewrite Htag ];
    done.
Qed.

(** X19.  When an add call with both bits fails on its write registration
    after its read registration was accepted, and the Free ring was empty,
    the record it allocated is the one the next add call takes, without
    growing the pool: after that call the record holds the new descriptor,
    while the read watch of the first descriptor number is still registered
    with this record as its tag. *)
Theorem failed_add_record_reused `{hdr : Headers} (pollset : fspr_pollset_t)
    (d1 d2 : fspr_pollfd_t) :
  has_event EV_ADD EV_ADD → APR_ENOMEM ≠ APR_SUCCESS →
  free_ring pollset = [] →
  has_event (reqevents d1) APR_POLLIN →
  has_event (reqevents d1) APR_POLLOUT →
  (kevent_change (kqueue_fd pollset) (add_read pollset d1)).2 ≠ -1 →
  (kevent_change (kevent_change (kqueue_fd pollset) (add_read pollset d1)).1
     (add_write pollset d1)).2 = -1 →
  let ps1 := (fspr_pollset_add pollset d1).1 in
  let ps2 := (fspr_pollset_add ps1 d2).1 in
  let r := next_record pollset in
  (fspr_pollset_add pollset d1).2 = APR_ENOMEM
  ∧ next_record ps1 = r
  ∧ length (pool ps2) = length (pool ps1)
  ∧ pool ps2 !! r = Some d2
  ∧ knotes (kqueue_fd ps2) !! (os_fd d1, EVFILT_READ) = Some (Some r).
Proof.
  intros Hadd Hne Hfree Hin Hout H1 H2.
  assert (fspr_pollset_add pollset d1
          = ({| pool := pool_after_add pollset d1;
                nelts := nelts pollset;
                nalloc := nalloc pollset;
                kqueue_fd :=
                  (kevent_change
                     (kevent_change (kqueue_fd pollset) (add_read pollset d1)).1
                     (add_write pollset d1)).1;
                kevent := add_write pollset d1;
                ke_set := ke_set pollset;
                result_set := result_set pollset;
                flags := flags pollset;
                query_ring := query_ring pollset;
                free_ring := free_after_take pollset ++ [next_record pollset];
                dead_ring := dead_ring pollset |}, APR_ENOMEM)) as Hadd1.
  { rewrite add_unfold. cbv zeta. rewrite two_changes_both by done. cbv zeta.
    apply Z.eqb_neq in H1 as ->. rewrite H2, Z.eqb_refl. cbn [fst snd].
    by apply Z.eqb_neq in Hne as ->. }
  cbv zeta. rewrite Hadd1. cbn [fst snd].
  set (ps1 := {| pool := pool_after_add pollset d1;
                 nelts := nelts pollset; nalloc := nalloc pollset;
                 kqueue_fd :=
                   (kevent_change
                      (kevent_change (kqueue_fd pollset) (add_read pollset d1)).1
                      (add_write pollset d1)).1;
                 kevent := add_write pollset d1;
                 ke_set := ke_set pollset; result_set := result_set pollset;
                 flags := flags pollset; query_ring := query_ring pollset;
                 free_ring := free_after_take pollset ++ [next_record pollset];
                 dead_ring := dead_ring pollset |}).
  assert (next_record ps1 = next_record pollset) as Hnext.
  { unfold next_record at 1. cbn [free_ring ps1]. unfold free_after_take.
    by rewrite Hfree. }
  assert (length (pool ps1) = S (length (pool pollset))) as Hlen1.
  { cbn. unfold pool_after_add. rewrite length_insert, Hfree, length_app.
    simpl. lia. }
  assert (next_record pollset = length (pool pollset)) as Hr.
  { unfold next_record. by rewrite Hfree. }
  assert (knotes (kqueue_fd ps1) !! (os_fd d1, EVFILT_READ)
          = Some (Some (next_record pollset))) as Hk1.
  { cbn. rewrite kevent_change_refused by done.
    rewrite kevent_change_added by done. apply lookup_insert_eq. }
  split; [done|]. split; [done|].
  rewrite add_unfold. cbv zeta.
  assert (pool_after_add ps1 d2 = <[next_record pollset := d2]> (pool ps1))
    as Hpool2.
  { unfold pool_after_add. rewrite Hnext. cbn [free_ring ps1].
    unfold free_after_take. by rewrite Hfree. }
  assert (knotes (two_changes ps1 (reqevents d2) (add_read ps1 d2)
                    (add_write ps1 d2) APR_ENOMEM).1.1
            !! (os_fd d1, EVFILT_READ) = Some (Some (next_record pollset)))
    as Hk2.
  { rewrite <- Hnext.
    apply (two_changes_same_tag ps1 _ (add_read ps1 d2) (add_write ps1 d2));
      try done. cbn [udata add_read EV_SET]. by rewrite Hnext. }
  destruct (_ =? APR_SUCCESS); cbn [fst pool kqueue_fd];
    rewrite Hpool2, length_insert;
    (split; [done|]); (split; [|done]);
    apply list_lookup_insert_eq; rewrite Hlen1, Hr; lia.
Qed.

Lemma failed_add_record_reused_witness :
  pool (fspr_pollset_add (hdr := bsd_headers)
          (fspr_pollset_add (hdr := bsd_headers) (fresh4 [false; true]) sock7).1
          sock8_out).1 !! 0%nat = Some sock8_out
  ∧ knotes (kqueue_fd
      (fspr_pollset_add (hdr := bsd_headers)
         (fspr_pollset_add (hdr := bsd_headers) (fresh4 [false; true]) sock7).1
         sock8_out).1) !! (7, -1) = Some (Some 0%nat).
Proof.
  assert (has_event (EV_ADD (Headers := bsd_headers)) (EV_ADD (Headers := bsd_headers)))
    as Hadd by (vm_compute; discriminate).
  assert (APR_ENOMEM (Headers := bsd_headers) ≠ APR_SUCCESS (Headers := bsd_headers))
    as Hne by (vm_compute; discriminate).
  assert (free_ring (fresh4 [false; true]) = []) as Hfree by reflexivity.
  assert (has_event (reqevents sock7) (APR_POLLIN (Headers := bsd_headers)))
    as Hin by (vm_compute; discriminate).
  assert (has_event (reqevents sock7) (APR_POLLOUT (Headers := bsd_headers)))
    as Hout by (vm_compute; discriminate).
  assert ((kevent_change (hdr := bsd_headers) (kqueue_fd (fresh4 [false; true]))
             (add_read (hdr := bsd_headers) (fresh4 [false; true]) sock7)).2 ≠ -1)
    as H1 by (vm_compute; discriminate).
  assert ((kevent_change (hdr := bsd_headers)
             (kevent_change (hdr := bsd_headers) (kqueue_fd (fresh4 [false; true]))
                (add_read (hdr := bsd_headers) (fresh4 [false; true]) sock7)).1
             (add_write (hdr := bsd_headers) (fresh4 [false; true]) sock7)).2 = -1)
    as H2 by (vm_compute; reflexivity).
  pose proof (failed_add_record_reused (hdr := bsd_headers)
                (fresh4 [false; true]) sock7 sock8_out
                Hadd Hne Hfree Hin Hout H1 H2) as (_ & _ & _ & Hp & Hk).
  split; [exact Hp|exact Hk].
Defined.

(** ** The status and the scan of remove *)

(** The requests of an add or remove call are [rd], then [wr], at most
    once each, and the status is the error status exactly when one of them
    was refused. *)
Lemma two_changes_calls `{hdr : Headers} (pollset : fspr_pollset_t) (req : Z)
    (rd wr : kevent_t) (err : Z) :
  let st := two_changes pollset req rd wr err in
  ∃ calls,
    ktrace st.1.1 = ktrace (kqueue_fd pollset) ++ calls
    ∧ st.2 = (if existsb refused calls then err else APR_SUCCESS)
    ∧ Forall (λ c, (∃ ret, c = sys_change rd ret ∨ c = sys_change wr ret)) calls
    ∧ (length calls ≤ 2)%nat.
Proof.
  unfold two_changes.
  destruct (c_and req APR_POLLIN);
    [rewrite change_step_true|rewrite change_step_false]; cbn [fst snd];
    (destruct (c_and req APR_POLLOUT); cbn [andb];
      [|rewrite change_step_false]).
  - destruct ((kevent_change (kqueue_fd pollset) rd).2 =? -1) eqn:E1.
    + destruct (err =? APR_SUCCESS) eqn:E.
      * rewrite change_step_true. cbn [fst snd].
        exists [sys_change rd (kevent_change (kqueue_fd pollset) rd).2;
                sys_change wr (kevent_change (kevent_change (kqueue_fd pollset) rd).1 wr).2].
        rewrite !kevent_change_trace, <- app_assoc. split; [done|].
        cbn [existsb refused]. rewrite E1. cbn [orb].
        split; [by case_match|]. split; [repeat constructor; eauto|simpl; lia].
      * rewrite change_step_false. cbn [fst snd].
        exists [sys_change rd (kevent_change (kqueue_fd pollset) rd).2].
        rewrite kevent_change_trace. split; [done|].
        cbn [existsb refused]. rewrite E1.
        split; [done|]. split; [repeat constructor; eauto|simpl; lia].
    + rewrite Z.eqb_refl, change_step_true. cbn [fst snd].
      exists [sys_change rd (kevent_change (kqueue_fd pollset) rd).2;
              sys_change wr (kevent_change (kevent_change (kqueue_fd pollset) rd).1 wr).2].
      rewrite !kevent_change_trace, <- app_assoc. split; [done|].
      cbn [existsb refused]. rewrite E1. cbn [orb]. rewrite orb_false_r.
      split; [done|]. split; [repeat constructor; eauto|simpl; lia].
  - cbn [fst snd].
    exists [sys_change rd (kevent_change (kqueue_fd pollset) rd).2].
    rewrite kevent_change_trace. split; [done|].
    cbn [existsb refused]. rewrite orb_false_r.
    split; [done|]. split; [repeat constructor; eauto|simpl; lia].
  - rewrite Z.eqb_refl, change_step_true. cbn [fst snd].
    exists [sys_change wr (kevent_change (kqueue_fd pollset) wr).2].
    rewrite kevent_change_trace. split; [done|].
    cbn [existsb refused]. rewrite orb_false_r.
    split; [done|]. split; [repeat constructor; eauto|simpl; lia].
  - exists []. cbn [fst snd existsb]. rewrite app_nil_r.
    split; [done|]. split; [done|]. split; [constructor|simpl; lia].
Qed.

(** C3, as the code has it.  A remove call makes at most two native
    requests, each an [EV_DELETE] of the read or of the write filter of the
    descriptor number; it returns success when none of them was refused, in
    particular when the mask has neither bit and no request is made, and
    [APR_NOTFOUND] when one was.  Whatever the status, the Active ring is
    scanned: either some record of the ring holds the descriptor's pointer,
    and the first such record leaves the Active ring for the tail of the
    Dead ring, the others staying in their order; or none does, and the
    rings are as they were.  The Free ring is not touched. *)
Theorem remove_status `{hdr : Headers} (pollset : fspr_pollset_t)
    (descriptor : fspr_pollfd_t) :
  let ps' := (fspr_pollset_remove pollset descriptor).1 in
  let rv := (fspr_pollset_remove pollset descriptor).2 in
  let ptr := desc_ptr (desc descriptor) in
  (∃ calls,
     ktrace (kqueue_fd ps') = ktrace (kqueue_fd pollset) ++ calls
     ∧ rv = (if existsb refused calls then APR_NOTFOUND else APR_SUCCESS)
     ∧ (length calls ≤ 2)%nat
     ∧ Forall (λ c, (∃ flt ret,
                 c = sys_change (EV_SET (os_fd descriptor) flt EV_DELETE 0 0 None) ret
                 ∧ (flt = EVFILT_READ ∨ flt = EVFILT_WRITE))) calls)
  ∧ (¬ has_event (reqevents descriptor) APR_POLLIN →
     ¬ has_event (reqevents descriptor) APR_POLLOUT →
     rv = APR_SUCCESS ∧ kqueue_fd ps' = kqueue_fd pollset)
  ∧ ((∃ before ep after,
        query_ring pollset = before ++ ep :: after
        ∧ Forall (λ e, ¬ holds_ptr (pool pollset) ptr e) before
        ∧ holds_ptr (pool pollset) ptr ep
        ∧ query_ring ps' = before ++ after
        ∧ dead_ring ps' = dead_ring pollset ++ [ep])
     ∨ (Forall (λ e, ¬ holds_ptr (pool pollset) ptr e) (query_ring pollset)
        ∧ query_ring ps' = query_ring pollset
        ∧ dead_ring ps' = dead_ring pollset))
  ∧ free_ring ps' = free_ring pollset
  ∧ pool ps' = pool pollset.
Proof.
  rewrite remove_unfold. cbv zeta.
  cbn [fst snd query_ring dead_ring free_ring kqueue_fd pool].
  split; [|split; [|split; [|done]]].
  - destruct (two_changes_calls pollset (reqevents descriptor)
                (remove_read descriptor) (remove_write descriptor) APR_NOTFOUND)
      as (calls & Htrace & Hst & Hcalls & Hlen).
    exists calls. split; [done|]. split; [done|]. split; [done|].
    eapply Forall_impl; [exact Hcalls|].
    intros c [ret [-> | ->]]; [exists EVFILT_READ|exists EVFILT_WRITE];
      exists ret; split; auto.
  - intros Hin Hout. by rewrite two_changes_none.
  - destruct (ring_scan _ _ _) as [[ep rest]|] eqn:E; cbn.
    + left. apply ring_scan_Some in E as (before & after & Hq & -> & Hep & Hb).
      by exists before, ep, after.
    + right. apply ring_scan_None in E. by rewrite app_nil_r.
Qed.

(** ** The outcome of poll *)

(** The fields of the slot the loop stores for an event. *)
Lemma result_slot_fields `{hdr : Headers} (pfd : fspr_pollfd_t) (ke : kevent_t) :
  let slot := result_slot pfd ke in
  desc slot = desc pfd ∧ desc_type slot = desc_type pfd
  ∧ reqevents slot = reqevents pfd ∧ client_data slot = client_data pfd
  ∧ rtnevents slot
    = get_kqueue_revent (to_int16 (filter ke)) (to_int16 (kflags ke))
  ∧ (portable_masks_ok →
     0 ≤ EV_EOF < 2 ^ 16 → 0 ≤ EV_ERROR < 2 ^ 16 →
     - 2 ^ 15 ≤ filter ke < 2 ^ 15 →
     (has_event (rtnevents slot) APR_POLLIN ↔ filter ke = EVFILT_READ)
     ∧ (has_event (rtnevents slot) APR_POLLOUT ↔ filter ke = EVFILT_WRITE)
     ∧ (has_event (rtnevents slot) APR_POLLHUP ↔ has_event (kflags ke) EV_EOF)
     ∧ (has_event (rtnevents slot) APR_POLLERR
        ↔ has_event (kflags ke) EV_ERROR)).
Proof.
  cbv zeta. unfold result_slot. cbn.
  do 5 (split; [done|]).
  intros Hok Heof Herr Hflt.
  rewrite (to_int16_small (filter ke)) by done.
  pose proof Hok as [Hbits Hdup]. rewrite !Forall_cons in Hbits.
  destruct Hbits as ([Ra Pa] & [Rb Pb] & [Rc Pc] & [Rd Pd] & _).
  rewrite !NoDup_cons, !elem_of_cons in Hdup.
  pose proof (get_kqueue_revent_bit_iff (filter ke) (to_int16 (kflags ke))
                _ Hok Ra) as HIN.
  pose proof (get_kqueue_revent_bit_iff (filter ke) (to_int16 (kflags ke))
                _ Hok Rb) as HOUT.
  pose proof (get_kqueue_revent_bit_iff (filter ke) (to_int16 (kflags ke))
                _ Hok Rc) as HERR.
  pose proof (get_kqueue_revent_bit_iff (filter ke) (to_int16 (kflags ke))
                _ Hok Rd) as HHUP.
  rewrite <- Pa in HIN. rewrite <- Pb in HOUT.
  rewrite <- Pc in HERR. rewrite <- Pd in HHUP.
  rewrite !has_event_to_int16 in HIN, HOUT, HERR, HHUP by done.
  repeat split; try done; intuition congruence.
Qed.

(** C6.  A poll call returns the translation of the native error when the
    wait call returns a negative count; [APR_TIMEUP], with 0 written to
    [*num], when it returns zero; and when it returns a positive count N,
    success, with N written to [*num], [*descriptors] pointed at the result
    buffer when the caller asked for it, and slot [i] of the result buffer,
    for each [i] below N, filled from the record that event [i] is tagged
    with: the slot has that record's descriptor, type, requested events and
    client data, and its returned events are the translation of the event's
    filter and flags, readable or writable for a read or write filter,
    hangup or error for the end-of-file or error flag. *)
Theorem poll_outcome `{hdr : Headers} (pollset : fspr_pollset_t)
    (timeout : Z) (descriptors : bool) (w : wait_outcome) :
  poll_safe pollset w →
  let wt := kevent_wait (kqueue_fd pollset) (ke_set pollset)
              (to_int32 (nalloc pollset)) (poll_timespec timeout) w in
  let events := wt.1.1.2 in
  let ret := wt.1.2 in
  let errno := wt.2 in
  ∃ ps' r,
    fspr_pollset_poll pollset timeout descriptors w = Some (ps', r)
    ∧ (ret < 0 → poll_rv r = fspr_get_netos_error errno)
    ∧ (ret = 0 → poll_rv r = APR_TIMEUP ∧ poll_num r = 0)
    ∧ (0 < ret →
       poll_rv r = APR_SUCCESS ∧ poll_num r = ret
       ∧ poll_descriptors r = descriptors
       ∧ ke_set ps' = events
       ∧ ∀ i, (i < Z.to_nat ret)%nat →
           ∃ ke e pfd slot,
             events !! i = Some ke ∧ udata ke = Some e
             ∧ pool pollset !! e = Some pfd
             ∧ result_set ps' !! i = Some slot
             ∧ desc slot = desc pfd ∧ desc_type slot = desc_type pfd
             ∧ reqevents slot = reqevents pfd
             ∧ client_data slot = client_data pfd
             ∧ rtnevents slot
               = get_kqueue_revent (to_int16 (filter ke)) (to_int16 (kflags ke))
             ∧ (portable_masks_ok →
                0 ≤ EV_EOF < 2 ^ 16 → 0 ≤ EV_ERROR < 2 ^ 16 →
                - 2 ^ 15 ≤ filter ke < 2 ^ 15 →
                (has_event (rtnevents slot) APR_POLLIN
                 ↔ filter ke = EVFILT_READ)
                ∧ (has_event (rtnevents slot) APR_POLLOUT
                   ↔ filter ke = EVFILT_WRITE)
                ∧ (has_event (rtnevents slot) APR_POLLHUP
                   ↔ has_event (kflags ke) EV_EOF)
                ∧ (has_event (rtnevents slot) APR_POLLERR
                   ↔ has_event (kflags ke) EV_ERROR))).
Proof.
  intros Hsafe wt events ret errno.
  destruct (poll_spec pollset timeout descriptors w Hsafe)
    as (ps' & r & Hrun & _ & Hev & Hnum & Hrv & Hds & _ & Hslots).
  fold wt in Hev, Hnum, Hrv, Hds, Hslots. fold ret in Hnum, Hrv, Hds, Hslots.
  fold events in Hev, Hslots.
  exists ps', r. split; [done|]. split; [|split].
  - intros Hneg. rewrite Hrv. by rewrite (proj2 (Z.ltb_lt ret 0)).
  - intros Hz. rewrite Hrv, Hnum, Hz. done.
  - intros Hpos. split.
    { rewrite Hrv. rewrite (proj2 (Z.ltb_ge ret 0)) by lia.
      by rewrite (proj2 (Z.eqb_neq ret 0)) by lia. }
    split; [done|]. split.
    { rewrite Hds. by rewrite (proj2 (Z.ltb_lt 0 ret)). }
    split; [done|].
    intros i Hi. destruct (Hslots i Hi) as (ke & e & pfd & Hke & He & Hpfd & Hslot).
    exists ke, e, pfd, (result_slot pfd ke).
    do 4 (split; [done|]). apply result_slot_fields.
Qed.

Lemma poll_outcome_witness :
  poll_safe one_dead (wait_ready [ev7_read_eof])
  ∧ ∃ ps' r,
      fspr_pollset_poll (hdr := bsd_headers) one_dead (-1) true
        (wait_ready [ev7_read_eof]) = Some (ps', r)
      ∧ poll_rv r = 0 ∧ poll_num r = 1 ∧ poll_descriptors r = true
      ∧ ∃ slot,
          result_set ps' !! 0%nat = Some slot
          ∧ desc slot = desc sock7_in ∧ reqevents slot = 1
          ∧ rtnevents slot = 33.
Proof.
  assert (poll_safe one_dead (wait_ready [ev7_read_eof])) as Hsafe.
  { split; [vm_compute; lia|].
    repeat constructor. exists 0%nat. split; [reflexivity|vm_compute; lia]. }
  split; [exact Hsafe|].
  destruct (poll_outcome (hdr := bsd_headers) one_dead (-1) true
              (wait_ready [ev7_read_eof]) Hsafe)
    as (ps' & r & Hrun & _ & _ & Hpos).
  destruct Hpos as (Hrv & Hnum & Hds & _ & Hslots); [vm_compute; reflexivity|].
  destruct (Hslots 0%nat) as (ke & e & pfd & slot & Hke & He & Hpfd & Hslot
                              & Hdesc & _ & Hreq & _ & Hrtn & _);
    [vm_compute; lia|].
  vm_compute in Hke. injection Hke as <-.
  vm_compute in He. injection He as <-.
  vm_compute in Hpfd. injection Hpfd as <-.
  exists ps', r. split; [exact Hrun|].
  split; [exact Hrv|]. split; [exact Hnum|]. split; [exact Hds|].
  exists slot. split; [exact Hslot|]. split; [exact Hdesc|].
  split; [exact Hreq|]. rewrite Hrtn. vm_compute. reflexivity.
Defined.
